(** * Envelope file storage and delivery (documenso)

    Shallow embedding of
    - [src/packages/lib/universal/upload/put-file.server.ts]
      (putPdfFileServerSide, putNormalizedPdfFileServerSide,
       putFileServerSide, putFileInDatabase, putFileInS3),
    - [src/apps/remix/server/api/files/files.helpers.ts]
      (handleEnvelopeItemFileRequest and the routes of filesRoute),
    - [src/unnamed/part_000] (queryAuditLogs). *)

From Stdlib Require Import ZArith List String Ascii Bool Lia.
From Stdlib Require Import Strings.Byte.
From stdpp Require Import base gmap strings pretty.
Import ListNotations.
Open Scope Z_scope.

(* ------------------------------------------------------------------ *)
(** ** SHA-256 (FIPS 180-4) over 32-bit words held in [Z] *)

Module Sha256.

Definition w32 (x : Z) : Z := Z.land x (Z.ones 32).
Definition add32 (x y : Z) : Z := w32 (x + y).
Definition rotr (n x : Z) : Z := Z.lor (Z.shiftr x n) (w32 (Z.shiftl x (32 - n))).
Definition shr (n x : Z) : Z := Z.shiftr x n.
Definition lnot32 (x : Z) : Z := Z.lxor x (Z.ones 32).

Definition Ch (x y z : Z) : Z := Z.lxor (Z.land x y) (Z.land (lnot32 x) z).
Definition Maj (x y z : Z) : Z :=
  Z.lxor (Z.land x y) (Z.lxor (Z.land x z) (Z.land y z)).
Definition Sigma0 (x : Z) : Z := Z.lxor (rotr 2 x) (Z.lxor (rotr 13 x) (rotr 22 x)).
Definition Sigma1 (x : Z) : Z := Z.lxor (rotr 6 x) (Z.lxor (rotr 11 x) (rotr 25 x)).
Definition sigma0 (x : Z) : Z := Z.lxor (rotr 7 x) (Z.lxor (rotr 18 x) (shr 3 x)).
Definition sigma1 (x : Z) : Z := Z.lxor (rotr 17 x) (Z.lxor (rotr 19 x) (shr 10 x)).

(** Round constants, written in decimal. *)
Definition K : list Z :=
  [ 1116352408; 1899447441; 3049323471; 3921009573; 961987163; 1508970993;
    2453635748; 2870763221; 3624381080; 310598401; 607225278; 1426881987;
    1925078388; 2162078206; 2614888103; 3248222580; 3835390401; 4022224774;
    264347078; 604807628; 770255983; 1249150122; 1555081692; 1996064986;
    2554220882; 2821834349; 2952996808; 3210313671; 3336571891; 3584528711;
    113926993; 338241895; 666307205; 773529912; 1294757372; 1396182291;
    1695183700; 1986661051; 2177026350; 2456956037; 2730485921; 2820302411;
    3259730800; 3345764771; 3516065817; 3600352804; 4094571909; 275423344;
    430227734; 506948616; 659060556; 883997877; 958139571; 1322822218;
    1537002063; 1747873779; 1955562222; 2024104815; 2227730452; 2361852424;
    2428436474; 2756734187; 3204031479; 3329325298 ].

(** The eight working variables / chaining words. *)
Record H8 := mkH8 { ha : Z; hb : Z; hc : Z; hd : Z; he : Z; hf : Z; hg : Z; hh : Z }.

Definition H0 : H8 :=
  mkH8 1779033703 3144134277 1013904242 2773480762
       1359893119 2600822924 528734635 1541459225.

(** Big-endian splitting of a byte list into 32-bit words. *)
Fixpoint be_words (fuel : nat) (l : list Z) : list Z :=
  match fuel with
  | O => []
  | S f =>
      match l with
      | b0 :: b1 :: b2 :: b3 :: rest =>
          (b0 * 16777216 + b1 * 65536 + b2 * 256 + b3) :: be_words f rest
      | _ => []
      end
  end.

(** Message schedule W_0 .. W_63, built by appending W_t for t = 16 .. 63. *)
Fixpoint schedule (n : nat) (w : list Z) : list Z :=
  match n with
  | O => w
  | S n' =>
      let t := length w in
      let W i := nth i w 0 in
      schedule n'
        (w ++ [add32 (add32 (sigma1 (W (t - 2)%nat)) (W (t - 7)%nat))
                     (add32 (sigma0 (W (t - 15)%nat)) (W (t - 16)%nat))])
  end.

Definition round (s : H8) (kw : Z * Z) : H8 :=
  let '(k, w) := kw in
  let T1 := add32 (add32 (add32 (hh s) (Sigma1 (he s)))
                         (add32 (Ch (he s) (hf s) (hg s)) k)) w in
  let T2 := add32 (Sigma0 (ha s)) (Maj (ha s) (hb s) (hc s)) in
  mkH8 (add32 T1 T2) (ha s) (hb s) (hc s) (add32 (hd s) T1) (he s) (hf s) (hg s).

Definition compress (s : H8) (block : list Z) : H8 :=
  let W := schedule 48 (be_words 16 block) in
  let s' := fold_left round (combine K W) s in
  mkH8 (add32 (ha s) (ha s')) (add32 (hb s) (hb s')) (add32 (hc s) (hc s'))
       (add32 (hd s) (hd s')) (add32 (he s) (he s')) (add32 (hf s) (hf s'))
       (add32 (hg s) (hg s')) (add32 (hh s) (hh s')).

Definition be_bytes (n : nat) (x : Z) : list Z :=
  map (fun i => Z.land (Z.shiftr x (8 * Z.of_nat (n - 1 - i))) 255) (seq 0 n).

Definition pad (msg : list Z) : list Z :=
  let L := Z.of_nat (length msg) in
  msg ++ [128] ++ repeat 0 (Z.to_nat ((55 - L) mod 64)) ++ be_bytes 8 (8 * L).

Fixpoint blocks (fuel : nat) (l : list Z) : list (list Z) :=
  match fuel with
  | O => []
  | S f =>
      match l with
      | [] => []
      | _ => firstn 64 l :: blocks f (skipn 64 l)
      end
  end.

Definition word_bytes (x : Z) : list Z :=
  [Z.shiftr x 24; Z.land (Z.shiftr x 16) 255; Z.land (Z.shiftr x 8) 255; Z.land x 255].

Definition digest (s : H8) : list Z :=
  word_bytes (ha s) ++ word_bytes (hb s) ++ word_bytes (hc s) ++ word_bytes (hd s) ++
  word_bytes (he s) ++ word_bytes (hf s) ++ word_bytes (hg s) ++ word_bytes (hh s).

Definition hash (msg : list Z) : list Z :=
  let p := pad msg in
  digest (fold_left compress (blocks (length p) p) H0).

End Sha256.

(* ------------------------------------------------------------------ *)
(** ** Bytes, strings, hex *)

(** A JS string as a list of 8-bit code units; the code only ever hashes
    base64 text or object-store keys, so code points stay below 256. *)
Definition code (c : ascii) : Z := Z.of_nat (nat_of_ascii c).
Definition chr (n : Z) : ascii := ascii_of_nat (Z.to_nat n).

(** UTF-8 encoding of code points below 256 (what a JS hash of a string
    feeds to the digest). *)
Fixpoint utf8 (s : string) : list Z :=
  match s with
  | EmptyString => []
  | String c rest =>
      let n := code c in
      (if n <? 128 then [n]
       else [Z.lor 192 (Z.shiftr n 6); Z.lor 128 (Z.land n 63)]) ++ utf8 rest
  end.

Definition byte_to_Z (b : byte) : Z := Z.of_N (Byte.to_N b).
Definition byte_of_Z (z : Z) : byte :=
  match Byte.of_N (Z.to_N z) with Some b => b | None => x00 end.

Definition hex_digit (n : Z) : ascii :=
  if n <? 10 then chr (48 + n) else chr (87 + n).

(** [Buffer.from(bytes).toString('hex')]: two lowercase digits per byte. *)
Fixpoint to_hex (l : list Z) : string :=
  match l with
  | [] => EmptyString
  | b :: rest => String (hex_digit (Z.shiftr b 4)) (String (hex_digit (Z.land b 15)) (to_hex rest))
  end.

(* ------------------------------------------------------------------ *)
(** ** Base64 (RFC 4648, padded), as [base64] of [@scure/base] *)

Module Base64.

Definition enc_char (v : Z) : ascii :=
  if v <? 26 then chr (65 + v)
  else if v <? 52 then chr (71 + v)
  else if v <? 62 then chr (v - 4)
  else if v =? 62 then "+"%char else "/"%char.

Definition dec_char (c : ascii) : option Z :=
  let k := code c in
  if (65 <=? k) && (k <=? 90) then Some (k - 65)
  else if (97 <=? k) && (k <=? 122) then Some (k - 71)
  else if (48 <=? k) && (k <=? 57) then Some (k + 4)
  else if k =? 43 then Some 62
  else if k =? 47 then Some 63
  else None.

(** Six bits of [n] starting at bit [off]. *)
Definition sextet (n off : Z) : Z := Z.land (Z.shiftr n off) 63.

Definition pad_char : ascii := "="%char.

Fixpoint encode (l : list byte) : string :=
  match l with
  | [] => EmptyString
  | [b0] =>
      let n := byte_to_Z b0 * 65536 in
      String (enc_char (sextet n 18)) (String (enc_char (sextet n 12))
        (String pad_char (String pad_char EmptyString)))
  | [b0; b1] =>
      let n := byte_to_Z b0 * 65536 + byte_to_Z b1 * 256 in
      String (enc_char (sextet n 18)) (String (enc_char (sextet n 12))
        (String (enc_char (sextet n 6)) (String pad_char EmptyString)))
  | b0 :: b1 :: b2 :: rest =>
      let n := byte_to_Z b0 * 65536 + byte_to_Z b1 * 256 + byte_to_Z b2 in
      String (enc_char (sextet n 18)) (String (enc_char (sextet n 12))
        (String (enc_char (sextet n 6)) (String (enc_char (sextet n 0)) (encode rest))))
  end.

Definition join4 (v0 v1 v2 v3 : Z) : Z := v0 * 262144 + v1 * 4096 + v2 * 64 + v3.
Definition byte_at (m off : Z) : byte := byte_of_Z (Z.land (Z.shiftr m off) 255).

Fixpoint decode (s : string) : option (list byte) :=
  match s with
  | EmptyString => Some []
  | String c0 (String c1 (String c2 (String c3 rest))) =>
      match dec_char c0, dec_char c1 with
      | Some v0, Some v1 =>
          if Ascii.eqb c2 pad_char && Ascii.eqb c3 pad_char && String.eqb rest EmptyString then
            Some [byte_at (join4 v0 v1 0 0) 16]
          else if Ascii.eqb c3 pad_char && String.eqb rest EmptyString then
            match dec_char c2 with
            | Some v2 => let m := join4 v0 v1 v2 0 in Some [byte_at m 16; byte_at m 8]
            | None => None
            end
          else
            match dec_char c2, dec_char c3 with
            | Some v2, Some v3 =>
                let m := join4 v0 v1 v2 v3 in
                match decode rest with
                | Some bs => Some (byte_at m 16 :: byte_at m 8 :: byte_at m 0 :: bs)
                | None => None
                end
            | _, _ => None
            end
      | _, _ => None
      end
  | _ => None
  end.

End Base64.

(* ------------------------------------------------------------------ *)
(** ** Data model *)

Inductive DocumentDataType := BYTES_64 | S3_PATH.
Inductive DocumentStatus := DRAFT | PENDING | COMPLETED | REJECTED.
Inductive Version := signed | original.
Inductive AppErrorCode := INVALID_DOCUMENT_FILE | UPLOAD_FAILED.

Definition status_eqb (a b : DocumentStatus) : bool :=
  match a, b with
  | DRAFT, DRAFT | PENDING, PENDING | COMPLETED, COMPLETED | REJECTED, REJECTED => true
  | _, _ => false
  end.

(** The [documentData] record as the file handler receives it. *)
Record DocumentData := mkDocumentData {
  dd_type : DocumentDataType;
  dd_data : string;
  dd_initialData : string }.

(** The uploaded [File] ([name], [type], [arrayBuffer()], [size]). *)
Record File := mkFile { name : string; ftype : string; contents : list byte }.
Definition size (f : File) : Z := Z.of_nat (length (contents f)).

(** External object store (S3): objects by key, whether it answers, and
    the counter its key generator draws from. *)
Record ObjectStore := mkObjectStore {
  objects : gmap string (list byte);
  reachable : bool;
  next_key : nat }.

(** What the storage layer is asked to do, in order. *)
Inductive StorageCall :=
  | PutFile (t : DocumentDataType)
  | GetFile (t : DocumentDataType) (data : string).

Record World := mkWorld {
  w_store : ObjectStore;
  w_calls : list StorageCall;
  w_records : list (DocumentDataType * string) }.

(** Async code that may throw an [AppError], over the world. *)
Inductive Result (A : Type) := Ok (a : A) | Throw (e : AppErrorCode).
Arguments Ok {A} a.
Arguments Throw {A} e.

Definition M (A : Type) : Type := World -> Result A * World.
Definition ret {A} (a : A) : M A := fun w => (Ok a, w).
Definition throw {A} (e : AppErrorCode) : M A := fun w => (Throw e, w).
Definition bind {A B} (m : M A) (k : A -> M B) : M B :=
  fun w => match m w with
           | (Ok a, w') => k a w'
           | (Throw e, w') => (Throw e, w')
           end.
Definition catch {A} (m : M A) (h : AppErrorCode -> M A) : M A :=
  fun w => match m w with
           | (Throw e, w') => h e w'
           | r => r
           end.
Definition log_call (c : StorageCall) : M unit :=
  fun w => (Ok tt, mkWorld (w_store w) (w_calls w ++ [c]) (w_records w)).

Notation "x <- m ;; k" := (bind m (fun x => k)) (at level 100, m at next level, right associativity).

(* ------------------------------------------------------------------ *)
(** ** Hono responses *)

Definition Headers := list (string * string).

(** [c.header(k, v)] replaces any earlier value of [k]. *)
Definition set_header (k v : string) (h : Headers) : Headers :=
  filter (fun p => negb (String.eqb (fst p) k)) h ++ [(k, v)].

Definition get_header (k : string) (h : Headers) : option string :=
  option_map snd (find (fun p => String.eqb (fst p) k) h).

Inductive Body :=
  | NoBody
  | JsonError (msg : string)
  | JsonDocumentData (td : DocumentDataType * string)
  | Bytes (b : list byte).

Record Response := mkResponse { res_status : Z; res_headers : Headers; res_body : Body }.

(** [c.json({ error: msg }, code)]. *)
Definition json_error (code : Z) (msg : string) : Response :=
  mkResponse code [("Content-Type", "application/json")]%string (JsonError msg).

(* ------------------------------------------------------------------ *)
(** ** Storage backends ([put-file.server.ts] and its collaborators) *)

Definition ends_with (suffix s : string) : bool :=
  let n := String.length s in
  let k := String.length suffix in
  (k <=? n)%nat && String.eqb (substring (n - k) k s) suffix.

(** [putFileInDatabase]: inline backend. *)
Definition putFileInDatabase (file : File) : M (DocumentDataType * string) :=
  ret (BYTES_64, Base64.encode (contents file)).

(** Modelled from the spec: [uploadS3File] (server-actions, not in src/):
    uploads under a generated key and returns it; a store that does not
    answer makes it fail. *)
Definition uploadS3File (file : File) : M string :=
  fun w =>
    let st := w_store w in
    if reachable st then
      let key := ("upload/" ++ pretty (next_key st) ++ "/" ++ name file)%string in
      (Ok key, mkWorld (mkObjectStore (<[key := contents file]> (objects st)) true (S (next_key st)))
                       (w_calls w) (w_records w))
    else (Throw UPLOAD_FAILED, w).

(** [putFileInS3]: object-store backend (telemetry and logging omitted). *)
Definition putFileInS3 (file : File) : M (DocumentDataType * string) :=
  key <- uploadS3File file ;;
  ret (S3_PATH, key).

Section Upload.

(** [NEXT_PUBLIC_UPLOAD_TRANSPORT], read from the environment. *)
Variable NEXT_PUBLIC_UPLOAD_TRANSPORT : option string.

Definition is_s3 : bool :=
  match NEXT_PUBLIC_UPLOAD_TRANSPORT with Some t => String.eqb t "s3" | None => false end.

(** [putFileServerSide]: ['s3'] selects the object store, anything else
    the inline backend. *)
Definition putFileServerSide (file : File) : M (DocumentDataType * string) :=
  _ <- log_call (PutFile (if is_s3 then S3_PATH else BYTES_64)) ;;
  if is_s3 then putFileInS3 file else putFileInDatabase file.

(** Modelled from the spec: [createDocumentData] (not in src/) persists the
    [{type, data}] pair as a new record. *)
Definition createDocumentData (td : DocumentDataType * string) : M (DocumentDataType * string) :=
  fun w => (Ok td, mkWorld (w_store w) (w_calls w) (w_records w ++ [td])).

(** [PDFDocument.load] of pdf-lib: [None] when parsing fails, otherwise
    [Some isEncrypted]; and the structural rewrite applied by normalisation. *)
Variable pdf_load : list byte -> option bool.
Variable pdf_rewrite : list byte -> list byte.

(** [putPdfFileServerSide]. *)
Definition putPdfFileServerSide (file : File) : M (DocumentDataType * string) :=
  let isEncryptedDocumentsAllowed := false in
  match pdf_load (contents file) with
  | None => throw INVALID_DOCUMENT_FILE
  | Some isEncrypted =>
      if negb isEncryptedDocumentsAllowed && isEncrypted then throw INVALID_DOCUMENT_FILE
      else
        let file' := if ends_with ".pdf" (name file) then file
                     else mkFile (name file ++ ".pdf") (ftype file) (contents file) in
        td <- putFileServerSide file' ;;
        createDocumentData td
  end.

(** Modelled from the spec: [normalizePdf] (server-only/pdf, not in src/),
    the validate+normalize path: it rejects what fails to parse and
    encrypted documents with [INVALID_DOCUMENT_FILE], then rewrites. *)
Definition normalizePdf (bytes : list byte) : M (list byte) :=
  match pdf_load bytes with
  | None => throw INVALID_DOCUMENT_FILE
  | Some true => throw INVALID_DOCUMENT_FILE
  | Some false => ret (pdf_rewrite bytes)
  end.

(** [putNormalizedPdfFileServerSide]. *)
Definition putNormalizedPdfFileServerSide (file : File) : M (DocumentDataType * string) :=
  normalized <- normalizePdf (contents file) ;;
  let fileName := if ends_with ".pdf" (name file) then name file else (name file ++ ".pdf")%string in
  td <- putFileServerSide (mkFile fileName "application/pdf" normalized) ;;
  createDocumentData td.


(** Size limit of [POST /upload-pdf], from megabytes to bytes. *)
Definition MAX_FILE_SIZE (APP_DOCUMENT_UPLOAD_SIZE_LIMIT : Z) : Z :=
  APP_DOCUMENT_UPLOAD_SIZE_LIMIT * 1024 * 1024.

(** [POST /upload-pdf], after the form validator: the optional [file]. *)
Definition uploadPdfRoute (APP_DOCUMENT_UPLOAD_SIZE_LIMIT : Z) (file : option File) : M Response :=
  match file with
  | None => ret (json_error 400 "No file provided")
  | Some f =>
      if size f >? MAX_FILE_SIZE APP_DOCUMENT_UPLOAD_SIZE_LIMIT
      then ret (json_error 400 "File too large")
      else catch (td <- putNormalizedPdfFileServerSide f ;;
                  ret (mkResponse 200 [("Content-Type", "application/json")]%string (JsonDocumentData td)))
                 (fun _ => ret (json_error 500 "Upload failed"))
  end.

End Upload.

(** Modelled from the spec: [getFileServerSide] (get-file.server, not in
    src/): inline data is base64-decoded, an object-store key is fetched;
    [None] is a rejected promise (bad encoding, missing key, store down). *)
Definition getFileServerSide (st : ObjectStore) (t : DocumentDataType) (data : string)
  : option (list byte) :=
  match t with
  | BYTES_64 => Base64.decode data
  | S3_PATH => if reachable st then objects st !! data else None
  end.

(* ------------------------------------------------------------------ *)
(** ** [handleEnvelopeItemFileRequest] *)

(** Modelled from the spec: [sha256] of [universal/crypto] (not in src/),
    the deterministic hash behind the ETag: SHA-256 of the UTF-8 bytes of
    the string it is given. *)
Definition sha256 (s : string) : list Z := Sha256.hash (utf8 s).

Record HandleOpts := mkHandleOpts {
  title : string;
  status : DocumentStatus;
  documentData : DocumentData;
  version : Version;
  isDownload : bool }.

(** The parts of the request the file routes read. *)
Record Request := mkRequest {
  if_none_match : option string;   (* header 'If-None-Match' *)
  session_user : option Z;         (* getOptionalSession(c).user?.id *)
  query_token : option string }.   (* query parameter 'token' *)

Definition header_is (h : option string) (v : string) : bool :=
  match h with Some x => String.eqb x v | None => false end.

(** [title.replace(/\.pdf$/, '')]. *)
Definition strip_pdf (t : string) : string :=
  if ends_with ".pdf" t then substring 0 (String.length t - 4) t else t.

(** The file names for which [contentDisposition] below is that of the
    [content-disposition] package: printable ASCII without [/] (so
    [basename] keeps the name whole) and without [%] (so no [filename*]
    parameter is added). *)
Definition plain_filename_char (c : ascii) : bool :=
  (32 <=? nat_of_ascii c)%nat && (nat_of_ascii c <=? 126)%nat &&
  negb (Ascii.eqb c "/"%char) && negb (Ascii.eqb c "%"%char).

(** [qstring]: a backslash before every double quote and every backslash. *)
Fixpoint qstring_escape (s : string) : string :=
  match s with
  | EmptyString => EmptyString
  | String c s' =>
      if Ascii.eqb c "034"%char || Ascii.eqb c "092"%char
      then String "092"%char (String c (qstring_escape s'))
      else String c (qstring_escape s')
  end.

(** [contentDisposition(filename)] for a name of [plain_filename_char]s:
    [attachment; filename="..."] with the name as a quoted string. *)
Definition contentDisposition (filename : string) : string :=
  ("attachment; filename=" ++ String "034"%char (qstring_escape filename ++ String "034"%char EmptyString))%string.

Definition documentDataToUse (o : HandleOpts) : string :=
  match version o with
  | signed => dd_data (documentData o)
  | original => dd_initialData (documentData o)
  end.

Definition etag_of (o : HandleOpts) : string := to_hex (sha256 (documentDataToUse o)).

Definition handleEnvelopeItemFileRequest (st : ObjectStore) (req : Request) (o : HandleOpts)
  : Response * list StorageCall :=
  let toUse := documentDataToUse o in
  let etag := to_hex (sha256 toUse) in
  if header_is (if_none_match req) etag && negb (isDownload o) then
    (mkResponse 304 [] NoBody, [])
  else
    let calls := [GetFile (dd_type (documentData o)) toUse] in
    match getFileServerSide st (dd_type (documentData o)) toUse with
    | None => (json_error 404 "File not found", calls)
    | Some file =>
        let h0 := set_header "ETag" etag (set_header "Content-Type" "application/pdf" []) in
        let h1 :=
          if negb (isDownload o) then
            if status_eqb (status o) COMPLETED
            then set_header "Cache-Control" "public, max-age=31536000, immutable" h0
            else set_header "Cache-Control" "public, max-age=0, must-revalidate" h0
          else h0 in
        let h2 :=
          if isDownload o then
            let baseTitle := strip_pdf (title o) in
            let suffix := match version o with signed => "_signed.pdf" | original => ".pdf" end in
            set_header "Expires" "0"
              (set_header "Pragma" "no-cache"
                (set_header "Cache-Control" "no-cache, no-store, must-revalidate"
                  (set_header "Content-Disposition"
                     (contentDisposition (baseTitle ++ suffix)) h1)))
          else h1 in
        (mkResponse 200 h2 (Bytes file), calls)
    end%string.

(* ------------------------------------------------------------------ *)
(** ** The GET routes of [filesRoute] *)

Record EnvelopeItem := mkEnvelopeItem {
  ei_id : string;
  ei_title : string;
  ei_documentData : option DocumentData }.

Record Envelope := mkEnvelope {
  e_id : string;
  e_status : DocumentStatus;
  e_teamId : Z;
  e_qrToken : option string;
  e_recipientTokens : list string;
  e_items : list EnvelopeItem }.

(** The collaborators the routes call: the embedding presign-token check
    (a user id, or a rejected promise) and [getTeamById] (resolves iff the
    user may see the team). *)
Record Services := mkServices {
  verifyEmbeddingPresignToken : string -> option Z;
  getTeamById : Z -> Z -> bool }.

(** [if (!userId)] on a numeric id. *)
Definition truthy_id (u : option Z) : option Z :=
  match u with Some x => if x =? 0 then None else Some x | None => None end.

Definition find_envelope (db : list Envelope) (envelopeId : string) : option Envelope :=
  find (fun e => String.eqb (e_id e) envelopeId) db.

Definition items_with_id (env : Envelope) (envelopeItemId : string) : list EnvelopeItem :=
  filter (fun i => String.eqb (ei_id i) envelopeItemId) (e_items env).

(** Shared tail of the two session routes, from the envelope lookup on. *)
Definition serveForUser (svc : Services) (db : list Envelope) (st : ObjectStore) (req : Request)
  (uid : Z) (envelopeId envelopeItemId : string) (v : Version) (dl : bool)
  : Response * list StorageCall :=
  match find_envelope db envelopeId with
  | None => (json_error 404 "Envelope not found", [])
  | Some env =>
      match items_with_id env envelopeItemId with
      | [] => (json_error 404 "Envelope item not found", [])
      | item :: _ =>
          if negb (getTeamById svc uid (e_teamId env)) then
            (json_error 403 "User does not have access to the team that this envelope is associated with", [])
          else
            match ei_documentData item with
            | None => (json_error 404 "Document data not found", [])
            | Some dd =>
                handleEnvelopeItemFileRequest st req
                  (mkHandleOpts (ei_title item) (e_status env) dd v dl)
            end
      end
  end.

(** [GET /envelope/:envelopeId/envelopeItem/:envelopeItemId]. *)
Definition getEnvelopeItemView (svc : Services) (db : list Envelope) (st : ObjectStore)
  (req : Request) (envelopeId envelopeItemId : string) : Response * list StorageCall :=
  let userId :=
    match query_token req with
    | Some token =>
        if String.eqb token "" then session_user req else verifyEmbeddingPresignToken svc token
    | None => session_user req
    end in
  match truthy_id userId with
  | None => (json_error 401 "Unauthorized", [])
  | Some uid => serveForUser svc db st req uid envelopeId envelopeItemId signed false
  end.

(** [GET /envelope/:envelopeId/envelopeItem/:envelopeItemId/download/:version?]. *)
Definition getEnvelopeItemDownload (svc : Services) (db : list Envelope) (st : ObjectStore)
  (req : Request) (envelopeId envelopeItemId : string) (v : Version) : Response * list StorageCall :=
  match session_user req with
  | None => (json_error 401 "Unauthorized", [])
  | Some uid => serveForUser svc db st req uid envelopeId envelopeItemId v true
  end.

(** [prisma.envelopeItem.findUnique] with the recipient-token or QR-token
    filter of the token routes. *)
Definition token_matches (token : string) (env : Envelope) : bool :=
  if String.prefix "qr_" token then
    match e_qrToken env with Some q => String.eqb q token | None => false end
  else existsb (String.eqb token) (e_recipientTokens env).

Definition find_item_by_token (db : list Envelope) (token envelopeItemId : string)
  : option (Envelope * EnvelopeItem) :=
  find (fun p => String.eqb (ei_id (snd p)) envelopeItemId && token_matches token (fst p))
       (flat_map (fun env => map (pair env) (e_items env)) db).

(** Shared body of the two token routes. *)
Definition serveByToken (db : list Envelope) (st : ObjectStore) (req : Request)
  (token envelopeItemId : string) (v : Version) (dl : bool) : Response * list StorageCall :=
  match find_item_by_token db token envelopeItemId with
  | None => (json_error 404 "Envelope item not found", [])
  | Some (env, item) =>
      match ei_documentData item with
      | None => (json_error 404 "Document data not found", [])
      | Some dd =>
          handleEnvelopeItemFileRequest st req
            (mkHandleOpts (ei_title item) (e_status env) dd v dl)
      end
  end.



(* ------------------------------------------------------------------ *)
(** ** [queryAuditLogs] ([src/unnamed/part_000]) *)

Record AuditLog := mkAuditLog { al_id : string; al_type : string }.

(** The JS number [Math.ceil(count / perPage)]: an integer, or [Infinity]
    ([count > 0]) or [NaN] ([count = 0]) when [perPage] is 0. *)
Inductive PageCount := PagesFinite (n : Z) | PagesInfinity | PagesNaN.

(** [Math.ceil(cnt / pp)] for an integer count [cnt >= 0]. *)
Definition ceil_div (cnt pp : Z) : PageCount :=
  if pp =? 0 then (if cnt =? 0 then PagesNaN else PagesInfinity)
  else PagesFinite (- ((- cnt) / pp)).

Record AuditLogPage := mkAuditLogPage {
  data : list AuditLog;
  count : Z;
  currentPage : Z;
  perPage_out : Z;
  totalPages : PageCount;
  nextCursor : option string }.

(** Prisma [findMany] over the rows matching [where] in [orderBy] order:
    start at the [cursor] row (nothing when it is absent), then [skip],
    then [take] (non-negative here). *)
Definition from_cursor (rows : list AuditLog) (cursor : option string) : list AuditLog :=
  match cursor with
  | None => rows
  | Some c =>
      (fix go (l : list AuditLog) :=
         match l with
         | [] => []
         | r :: rest => if String.eqb (al_id r) c then l else go rest
         end) rows
  end.

Definition findMany (rows : list AuditLog) (skip take : Z) (cursor : option string) : list AuditLog :=
  firstn (Z.to_nat take) (skipn (Z.to_nat skip) (from_cursor rows cursor)).

(** [cursor ? { id: cursor } : undefined]: an empty cursor is no cursor. *)
Definition prisma_cursor (cursor : option string) : option string :=
  match cursor with
  | Some c => if String.eqb c "" then None else Some c
  | None => None
  end.

Section AuditLogs.

(** [parseDocumentAuditLogData], applied to every fetched row. *)
Variable parseDocumentAuditLogData : AuditLog -> AuditLog.

(** [queryAuditLogs]; [rows] are the audit logs matching the where clause
    in the requested order, [page] and [perPage] the optional arguments. *)
Definition queryAuditLogs (rows : list AuditLog) (page_opt perPage_opt : option Z)
  (cursor : option string) : AuditLogPage :=
  let page := match page_opt with Some p => p | None => 1 end in
  let perPage := match perPage_opt with Some p => p | None => 30 end in
  let normalizedPage := Z.max page 1 in
  let skip := (normalizedPage - 1) * perPage in
  let fetched := findMany rows skip (perPage + 1) (prisma_cursor cursor) in
  let cnt := Z.of_nat (length rows) in
  let allParsedData := map parseDocumentAuditLogData fetched in
  let hasNextPage := Z.of_nat (length allParsedData) >? perPage in
  let parsedData := if hasNextPage then firstn (Z.to_nat perPage) allParsedData else allParsedData in
  let nextCursor := if hasNextPage
                    then option_map al_id (nth_error allParsedData (Z.to_nat perPage))
                    else None in
  mkAuditLogPage parsedData cnt normalizedPage perPage (ceil_div cnt perPage) nextCursor.

End AuditLogs.

(* ------------------------------------------------------------------ *)
(** ** The envelope audit-log lookups ([find-document-audit-logs.ts]) *)

(** [/^\d+$/.test(envelopeId)]: one or more ASCII digits and nothing else. *)
Definition is_ascii_digit (c : ascii) : bool :=
  (48 <=? nat_of_ascii c)%nat && (nat_of_ascii c <=? 57)%nat.

Definition isLegacyDocumentId (envelopeId : string) : bool :=
  negb (String.eqb envelopeId "") && forallb is_ascii_digit (list_ascii_of_string envelopeId).

(** [Number(envelopeId)] on a string of digits, read left to right (exact
    for the safe-integer range of document ids). *)
Fixpoint decimal_value_acc (acc : Z) (s : string) : Z :=
  match s with
  | EmptyString => acc
  | String c s' => decimal_value_acc (acc * 10 + (Z.of_nat (nat_of_ascii c) - 48)) s'
  end.

Definition Number_of_digits (s : string) : Z := decimal_value_acc 0 s.

(** The [id] argument of [getEnvelopeWhereInput] and the [EnvelopeType]. *)
Inductive EnvelopeIdConfig := IdDocumentId (id : Z) | IdEnvelopeId (id : string).
Inductive EnvelopeType := DOCUMENT | TEMPLATE.

Definition idConfig (envelopeId : string) : EnvelopeIdConfig * option EnvelopeType :=
  if isLegacyDocumentId envelopeId
  then (IdDocumentId (Number_of_digits envelopeId), Some DOCUMENT)
  else (IdEnvelopeId envelopeId, None).

(** A found page, or [AppError(NOT_FOUND)]. *)
Inductive FindAuditLogsResult :=
  | AuditLogsFound (p : AuditLogPage)
  | AuditLogsNotFound.

Section FindAuditLogs.

Variable parseDocumentAuditLogData : AuditLog -> AuditLog.

(** [getEnvelopeWhereInput] followed by [prisma.envelope.findUnique] (both
    outside src/): the envelope the user may see under that id, if any. *)
Variable findEnvelopeWhere : EnvelopeIdConfig -> option EnvelopeType -> Z -> Z -> option Envelope.

(** The audit logs of an envelope matching [buildAuditLogWhereClause], in
    the requested order. *)
Variable auditLogRows : Envelope -> option bool -> list AuditLog.

(** [findDocumentAuditLogs]. *)
Definition findDocumentAuditLogs (userId teamId documentId : Z) (page perPage : option Z)
  (cursor : option string) (filterForRecentActivity : option bool) : FindAuditLogsResult :=
  match findEnvelopeWhere (IdDocumentId documentId) (Some DOCUMENT) userId teamId with
  | None => AuditLogsNotFound
  | Some envelope =>
      AuditLogsFound (queryAuditLogs parseDocumentAuditLogData
                        (auditLogRows envelope filterForRecentActivity) page perPage cursor)
  end.

(** [findEnvelopeAuditLogs]. *)
Definition findEnvelopeAuditLogs (userId teamId : Z) (envelopeId : string) (page perPage : option Z)
  (cursor : option string) (filterForRecentActivity : option bool) : FindAuditLogsResult :=
  let (cfg, type) := idConfig envelopeId in
  match findEnvelopeWhere cfg type userId teamId with
  | None => AuditLogsNotFound
  | Some envelope =>
      AuditLogsFound (queryAuditLogs parseDocumentAuditLogData
                        (auditLogRows envelope filterForRecentActivity) page perPage cursor)
  end.

End FindAuditLogs.

(* ------------------------------------------------------------------ *)
(** ** E-sign telemetry ([esign-telemetry.ts]) *)

(** The JSON values that go into a log record. *)
Inductive JsonValue := JStr (s : string) | JNum (n : Z) | JOther (s : string).

(** A plain object as its own properties in order. Assigning a key that
    is already present replaces its value in place; a new key goes last. *)
Definition Obj := list (string * JsonValue).

Definition obj_set (k : string) (v : JsonValue) (o : Obj) : Obj :=
  if existsb (fun p => String.eqb (fst p) k) o
  then map (fun p => if String.eqb (fst p) k then (k, v) else p) o
  else o ++ [(k, v)].

(** [{...dst, ...src}]. *)
Definition obj_spread (src dst : Obj) : Obj :=
  fold_left (fun acc p => obj_set (fst p) (snd p) acc) src dst.

Definition obj_get (k : string) (o : Obj) : option JsonValue :=
  option_map snd (find (fun p => String.eqb (fst p) k) o).

Inductive EsignStatus := status_ok | status_error.

Definition esign_status_string (s : EsignStatus) : string :=
  match s with status_ok => "ok" | status_error => "error" end.

(** [string | number] ids. *)
Inductive JsId := IdString (s : string) | IdNumber (n : Z).

Definition jsid_truthy (v : JsId) : bool :=
  match v with IdString s => negb (String.eqb s "") | IdNumber n => negb (n =? 0) end.

Definition jsid_String (v : JsId) : string :=
  match v with IdString s => s | IdNumber n => pretty n end.

(** The [error] option: an [Error] instance, or another value given by
    its [String(...)] form and its truthiness. *)
Inductive ErrorValue :=
  | ErrorInstance (message : string)
  | NonError (asString : string) (truthy : bool).

Definition error_truthy (e : option ErrorValue) : bool :=
  match e with
  | Some (ErrorInstance _) => true
  | Some (NonError _ t) => t
  | None => false
  end.

Record EsignEventOpts := mkEsignEventOpts {
  ev_traceId : string;
  ev_step : string;
  ev_status : option EsignStatus;
  ev_orgId : option string;
  ev_userId : option JsId;
  ev_documentId : option JsId;
  ev_error : option ErrorValue;
  ev_extra : option Obj }.

Definition reserved_prefix (key : string) : bool :=
  String.prefix "esign." key || String.prefix "org_" key ||
  String.prefix "user_" key || String.prefix "document_" key.

(** The key under which an [extra] entry is recorded. *)
Definition extra_key (key : string) : string :=
  if reserved_prefix key then key else ("esign." ++ key)%string.

(** The [Object.entries(extra).reduce(...)] of [logEsignEvent]. *)
Definition flatten_extra (extra : Obj) : Obj :=
  fold_left (fun acc p => obj_set (extra_key (fst p)) (snd p) acc) extra [].

(** [logEsignEvent]: [None] when it warns and skips the event, otherwise
    the object handed to [JSON.stringify] for [console.log]; [DD_SERVICE]
    is [process.env.DD_SERVICE] and [timestamp] the ISO time. *)
Definition logEsignEvent (DD_SERVICE : option string) (timestamp : string) (opts : EsignEventOpts)
  : option Obj :=
  let status := match ev_status opts with Some s => s | None => status_ok end in
  let extra := match ev_extra opts with Some e => e | None => [] end in
  if String.eqb (ev_traceId opts) "" then None
  else if String.eqb (ev_step opts) "" then None
  else
    let service := match DD_SERVICE with
                   | Some s => if String.eqb s "" then "conecta-sign" else s
                   | None => "conecta-sign"
                   end in
    let core := [("esign.trace_id", JStr (ev_traceId opts));
                 ("esign.step", JStr (ev_step opts));
                 ("esign.status", JStr (esign_status_string status));
                 ("esign.service", JStr service)] in
    let orgPart := match ev_orgId opts with
                   | Some o => if String.eqb o "" then [] else [("org_id", JStr o)]
                   | None => [] end in
    let userPart := match ev_userId opts with
                    | Some u => if jsid_truthy u then [("user_id", JStr (jsid_String u))] else []
                    | None => [] end in
    let docPart := match ev_documentId opts with
                   | Some d => if jsid_truthy d then [("document_id", JStr (jsid_String d))] else []
                   | None => [] end in
    let errPart := if error_truthy (ev_error opts) then
                     match ev_error opts with
                     | Some (ErrorInstance m) => [("esign.error_message", JStr m)]
                     | Some (NonError s _) => [("esign.error_message", JStr s)]
                     | None => []
                     end
                   else [] in
    let logEntry := obj_spread (flatten_extra extra)
                      (obj_spread errPart (obj_spread docPart (obj_spread userPart
                         (obj_spread orgPart core)))) in
    let isError := match status with status_error => true | status_ok => false end
                   || error_truthy (ev_error opts) in
    let logMessage := if isError then ("[E-SIGN ERROR] " ++ ev_step opts)%string
                      else ("[E-SIGN] " ++ ev_step opts)%string in
    Some (obj_spread logEntry
            [("timestamp", JStr timestamp);
             ("level", JStr (if isError then "ERROR" else "INFO"));
             ("message", JStr logMessage)]).

(** The [sources] of [extractTraceId]; [requestMetadata] and [meta] are
    given, when present, by their [traceId] property. *)
Record TraceIdSources := mkTraceIdSources {
  src_traceId : option string;
  src_requestMetadata : option (option string);
  src_meta : option (option string) }.

(** [extractTraceId]; [now] is [Date.now()] and [random36] the text of
    [Math.random().toString(36).substr(2, 9)]. *)
Definition extractTraceId (now : Z) (random36 : string) (sources : option TraceIdSources) : string :=
  let s := match sources with Some s => s | None => mkTraceIdSources None None None end in
  let fallback := ("esign_" ++ pretty now ++ "_" ++ random36)%string in
  let truthy (o : option string) := match o with Some t => negb (String.eqb t "") | None => false end in
  if truthy (src_traceId s) then match src_traceId s with Some t => t | None => fallback end
  else
    let fromMetadata := match src_requestMetadata s with Some m => m | None => None end in
    if truthy fromMetadata then match fromMetadata with Some t => t | None => fallback end
    else
      let fromMeta := match src_meta s with Some m => m | None => None end in
      if truthy fromMeta then match fromMeta with Some t => t | None => fallback end
      else fallback.

(** The event [putFileInS3] logs once the object is stored under [key]. *)
Definition s3UploadEvent (now : Z) (random36 : string) (file : File) (key : string) : EsignEventOpts :=
  mkEsignEventOpts (extractTraceId now random36 (Some (mkTraceIdSources None None None)))
    "sign_s3_upload_complete" (Some status_ok) None None None None
    (Some [("fileName", JStr (name file)); ("fileSize", JNum (size file)); ("s3Key", JStr key)]).

(* ------------------------------------------------------------------ *)
(** ** Origin checks and error handler of the auth app ([auth/server/index.ts]) *)

Definition truthy_str (s : option string) : bool :=
  match s with Some x => negb (String.eqb x "") | None => false end.

(** [Array.from(new Set(l))]: first occurrences, in order. *)
Definition dedup (l : list string) : list string :=
  fold_left (fun acc x => if existsb (String.eqb x) acc then acc else acc ++ [x]) l [].

(** [allowedOrigins]; [url_origin u] is [new URL(u).origin], [None] when
    the constructor throws. *)
Definition allowedOrigins (url_origin : string -> option string) (urls : list (option string))
  : list string :=
  dedup (flat_map (fun o => match o with Some x => [x] | None => [] end)
           (List.filter truthy_str
              (map (fun url => match url with Some u => url_origin u | None => None end)
                 (List.filter truthy_str urls)))).

(** The [origin] callback given to [cors]. *)
Definition corsOrigin (allowed : list string) (origin : string) : option string :=
  if String.eqb origin "" then None
  else if existsb (String.eqb origin) allowed then Some origin else None.

(** A JSON error body [{ code?, message, statusCode? }]. *)
Record AuthJson := mkAuthJson {
  aj_code : option string;
  aj_message : string;
  aj_statusCode : option Z }.

(** The Origin middleware: [Some] is the 403 it answers, [None] is [next()]. *)
Definition originGuard (allowed : list string) (headerOrigin : option string) : option (Z * AuthJson) :=
  match headerOrigin with
  | Some o =>
      if negb (String.eqb o "") && negb (existsb (String.eqb o) allowed)
      then Some (403, mkAuthJson None "Forbidden" (Some 403))
      else None
  | None => None
  end.

(** What [onError] receives. *)
Inductive ThrownError :=
  | HTTPException (status : Z) (message : string)
  | AppError (code : string) (message : string) (statusCode : option Z)
  | OtherError (message : string).

(** [auth.onError]: the HTTP status and the JSON body. *)
Definition onError (err : ThrownError) : Z * AuthJson :=
  match err with
  | HTTPException s m => (s, mkAuthJson (Some "UNKNOWN_ERROR") m (Some s))
  | AppError c m sc =>
      let statusCode := match sc with Some s => if s =? 0 then 500 else s | None => 500 end in
      (statusCode, mkAuthJson (Some c) m sc)
  | OtherError _ => (500, mkAuthJson (Some "UNKNOWN_ERROR") "Internal Server Error" (Some 500))
  end.

(* ------------------------------------------------------------------ *)
(** ** Concrete inputs used by the examples below *)

Definition stub_pdf : list byte := [x25; x50; x44; x46; x2d; x31; x2e; x34; x0a; x25].
Definition empty_world : World := mkWorld (mkObjectStore ∅ true 0) [] [].
Definition plain_request : Request := mkRequest None None None.

(** A stored 10-byte stub under the inline backend, viewed back. *)
Definition stub_view : Response * list StorageCall :=
  match putFileServerSide None (mkFile "stub.pdf" "application/pdf" stub_pdf) empty_world with
  | (Ok (t, d), w') =>
      handleEnvelopeItemFileRequest (w_store w') plain_request
        (mkHandleOpts "stub.pdf" DRAFT (mkDocumentData t d d) signed false)
  | (Throw _, _) => (mkResponse 500 [] NoBody, [])
  end.

Definition view_opts (s : DocumentStatus) (dl : bool) : HandleOpts :=
  mkHandleOpts "contract.pdf" s
    (mkDocumentData BYTES_64 (Base64.encode stub_pdf) (Base64.encode stub_pdf)) signed dl.

Definition s3_opts : HandleOpts :=
  mkHandleOpts "contract.pdf" COMPLETED (mkDocumentData S3_PATH "upload/0/contract.pdf" "upload/0/contract.pdf")
    signed false.
Definition down_store : ObjectStore :=
  mkObjectStore (<["upload/0/contract.pdf" := stub_pdf]> ∅) false 1.

Definition matching_request : Request :=
  mkRequest (Some (etag_of (view_opts DRAFT false))) None None.

Definition big_file : File := mkFile "big.pdf" "application/pdf" stub_pdf.

Definition encrypted_file : File := mkFile "secret.pdf" "application/pdf" stub_pdf.
Definition load_all_encrypted (_ : list byte) : option bool := Some true.

Definition item_1 : EnvelopeItem :=
  mkEnvelopeItem "item_1" "contract.pdf"
    (Some (mkDocumentData BYTES_64 (Base64.encode stub_pdf) (Base64.encode stub_pdf))).
Definition env_1 : Envelope :=
  mkEnvelope "envelope_1" PENDING 7 (Some "qr_abc"%string) ["tok_alice"%string] [item_1].

Definition log_a : AuditLog := mkAuditLog "log_a" "DOCUMENT_CREATED".
Definition log_b : AuditLog := mkAuditLog "log_b" "DOCUMENT_SENT".

(** A user granted access to every team, signed in as user 5. *)
Definition team_services : Services := mkServices (fun _ => None) (fun _ _ => true).
Definition member_request : Request := mkRequest None (Some 5) None.

(** A download of the original version, whose initial data differs from
    the signed data. *)
Definition original_download_opts : HandleOpts :=
  mkHandleOpts "contract.pdf" COMPLETED
    (mkDocumentData BYTES_64 (Base64.encode stub_pdf) (Base64.encode [x25; x50; x44; x46])) original true.

Definition load_all_plain (_ : list byte) : option bool := Some false.

(** An error event whose [extra] reuses the name of a core field. *)
Definition signing_event : EsignEventOpts :=
  mkEsignEventOpts "trace_1" "sign_start" (Some status_error) None (Some (IdNumber 5)) None None
    (Some [("status", JStr "late")]).
Definition signing_record : Obj :=
  match logEsignEvent None "2026-01-01T00:00:00.000Z" signing_event with Some o => o | None => [] end.

(** An envelope lookup that knows legacy document 12345 only. *)
Definition legacy_lookup (cfg : EnvelopeIdConfig) (ty : option EnvelopeType) (_ _ : Z) : option Envelope :=
  match cfg, ty with
  | IdDocumentId n, Some DOCUMENT => if n =? 12345 then Some env_1 else None
  | _, _ => None
  end.
Definition legacy_rows (_ : Envelope) (_ : option bool) : list AuditLog := [log_a; log_b].

(* ------------------------------------------------------------------ *)
(** ** Arithmetic facts about bytes and base64 groups *)

Lemma byte_to_Z_range (b : byte) : 0 <= byte_to_Z b < 256.
Proof. unfold byte_to_Z. pose proof (Byte.to_N_bounded b). lia. Qed.

Lemma byte_of_to_Z (b : byte) : byte_of_Z (byte_to_Z b) = b.
Proof. unfold byte_of_Z, byte_to_Z. rewrite N2Z.id, Byte.of_to_N. reflexivity. Qed.

Module Base64Facts.
Import Base64.

Lemma sextet_spec (n off : Z) : 0 <= n -> 0 <= off -> sextet n off = (n / 2 ^ off) mod 64.
Proof.
  intros Hn Ho. unfold sextet. rewrite Z.shiftr_div_pow2 by lia.
  change 63 with (Z.ones 6). rewrite Z.land_ones by lia. reflexivity.
Qed.

Lemma byte_at_spec (m off : Z) : 0 <= m -> 0 <= off -> byte_at m off = byte_of_Z ((m / 2 ^ off) mod 256).
Proof.
  intros Hm Ho. unfold byte_at. rewrite Z.shiftr_div_pow2 by lia.
  change 255 with (Z.ones 8). rewrite Z.land_ones by lia. reflexivity.
Qed.

Lemma enc_char_ok (v : Z) :
  0 <= v < 64 -> dec_char (enc_char v) = Some v /\ Ascii.eqb (enc_char v) pad_char = false.
Proof.
  intros Hv.
  assert (Hall : forallb (fun k => let v := Z.of_nat k in
                   match dec_char (enc_char v) with Some v' => v' =? v | None => false end
                   && negb (Ascii.eqb (enc_char v) pad_char)) (seq 0 64) = true)
    by (vm_compute; reflexivity).
  rewrite forallb_forall in Hall.
  specialize (Hall (Z.to_nat v) ltac:(apply in_seq; lia)).
  rewrite Z2Nat.id in Hall by lia. cbv zeta in Hall.
  destruct (dec_char (enc_char v)) as [v'|]; [|discriminate].
  apply andb_prop in Hall as [H1 H2]. apply Z.eqb_eq in H1. subst v'.
  split; [reflexivity|]. destruct (Ascii.eqb (enc_char v) pad_char); [discriminate|reflexivity].
Qed.

Lemma mod64_range (x : Z) : 0 <= x mod 64 < 64.
Proof. apply Z.mod_pos_bound. lia. Qed.

(** One 24-bit group: its four sextets rebuild it and its three bytes
    come back out. *)
Lemma group_ok (a b c : Z) :
  0 <= a < 256 -> 0 <= b < 256 -> 0 <= c < 256 ->
  let n := a * 65536 + b * 256 + c in
  join4 (sextet n 18) (sextet n 12) (sextet n 6) (sextet n 0) = n /\
  byte_at n 16 = byte_of_Z a /\ byte_at n 8 = byte_of_Z b /\ byte_at n 0 = byte_of_Z c.
Proof.
  intros Ha Hb Hc n. assert (Hn : 0 <= n) by (subst n; lia).
  rewrite !sextet_spec, !byte_at_spec by lia. unfold join4.
  change (2 ^ 18) with 262144. change (2 ^ 12) with 4096. change (2 ^ 6) with 64.
  change (2 ^ 16) with 65536. change (2 ^ 8) with 256. change (2 ^ 0) with 1.
  rewrite !Z.div_1_r.
  split; [|split; [|split]]; [|f_equal..].
  - assert (E1 : n / 4096 = n / 64 / 64) by (rewrite Z.div_div by lia; reflexivity).
    assert (E2 : n / 262144 = n / 4096 / 64) by (rewrite Z.div_div by lia; reflexivity).
    rewrite E2, E1.
    pose proof (Z.div_mod n 64 ltac:(lia)).
    pose proof (Z.div_mod (n / 64) 64 ltac:(lia)).
    pose proof (Z.div_mod (n / 64 / 64) 64 ltac:(lia)).
    assert (0 <= n / 64 / 64 / 64 < 64).
    { rewrite !Z.div_div by lia. subst n.
      split; [apply Z.div_pos | apply Z.div_lt_upper_bound]; lia. }
    rewrite (Z.mod_small (n / 64 / 64 / 64)) by lia. lia.
  - subst n. replace (a * 65536 + b * 256 + c) with (b * 256 + c + a * 65536) by lia.
    rewrite Z.div_add by lia. rewrite Z.div_small by lia. apply Z.mod_small; lia.
  - subst n. replace (a * 65536 + b * 256 + c) with (c + (b + a * 256) * 256) by lia.
    rewrite Z.div_add by lia. rewrite Z.div_small by lia. rewrite Z.add_0_l.
    rewrite Z.mod_add by lia. apply Z.mod_small; lia.
  - subst n. replace (a * 65536 + b * 256 + c) with (c + (b + a * 256) * 256) by lia.
    rewrite Z.mod_add by lia. apply Z.mod_small; lia.
Qed.

Lemma low_sextet_zero (a b : Z) : sextet (a * 65536 + b * 256) 0 = 0.
Proof.
  unfold sextet. rewrite Z.shiftr_0_r. change 63 with (Z.ones 6).
  rewrite Z.land_ones by lia. replace (a * 65536 + b * 256) with ((a * 1024 + b * 4) * 64) by lia.
  apply Z.mod_mul. lia.
Qed.

Lemma mid_sextet_zero (a : Z) : 0 <= a -> sextet (a * 65536) 6 = 0.
Proof.
  intros Ha. rewrite sextet_spec by lia. change (2 ^ 6) with 64.
  replace (a * 65536) with ((a * 1024) * 64) by lia. rewrite Z.div_mul by lia.
  replace (a * 1024) with ((a * 16) * 64) by lia. apply Z.mod_mul. lia.
Qed.

Lemma group1_ok (a : Z) : 0 <= a < 256 ->
  join4 (sextet (a * 65536) 18) (sextet (a * 65536) 12) 0 0 = a * 65536 /\
  byte_at (a * 65536) 16 = byte_of_Z a.
Proof.
  intros Ha. destruct (group_ok a 0 0 Ha ltac:(lia) ltac:(lia)) as (J & E0 & _).
  replace (a * 65536 + 0 * 256 + 0) with (a * 65536) in J, E0 by lia.
  rewrite mid_sextet_zero in J by lia.
  replace (a * 65536) with (a * 65536 + 0 * 256) in J at 3 by lia.
  rewrite low_sextet_zero in J. replace (a * 65536 + 0 * 256) with (a * 65536) in J by lia.
  split; assumption.
Qed.

Lemma group2_ok (a b : Z) : 0 <= a < 256 -> 0 <= b < 256 ->
  let n := a * 65536 + b * 256 in
  join4 (sextet n 18) (sextet n 12) (sextet n 6) 0 = n /\
  byte_at n 16 = byte_of_Z a /\ byte_at n 8 = byte_of_Z b.
Proof.
  intros Ha Hb n. destruct (group_ok a b 0 Ha Hb ltac:(lia)) as (J & E0 & E1 & _).
  replace (a * 65536 + b * 256 + 0) with n in J, E0, E1 by (subst n; lia).
  subst n. rewrite low_sextet_zero in J. auto.
Qed.

Lemma sextet_range (n off : Z) : 0 <= n -> 0 <= off -> 0 <= sextet n off < 64.
Proof. intros. rewrite sextet_spec by lia. apply mod64_range. Qed.

End Base64Facts.

Module Base64Roundtrip.
Import Base64 Base64Facts.

Ltac enc_chars :=
  repeat match goal with
  | |- context [dec_char (enc_char (sextet ?n ?o))] =>
      rewrite (proj1 (enc_char_ok (sextet n o) (sextet_range n o ltac:(lia) ltac:(lia))))
  | |- context [Ascii.eqb (enc_char (sextet ?n ?o)) pad_char] =>
      rewrite (proj2 (enc_char_ok (sextet n o) (sextet_range n o ltac:(lia) ltac:(lia))))
  end.

Lemma decode_encode (l : list byte) : decode (encode l) = Some l.
Proof.
  revert l. fix IH 1. intros [|b0 [|b1 [|b2 rest]]].
  - reflexivity.
  - (* one byte, two padding characters *)
    pose proof (byte_to_Z_range b0) as R0.
    destruct (group1_ok _ R0) as (J & E0).
    cbn [encode decode].
    enc_chars.
    cbn. rewrite J, E0, byte_of_to_Z. reflexivity.
  - (* two bytes, one padding character *)
    pose proof (byte_to_Z_range b0) as R0. pose proof (byte_to_Z_range b1) as R1.
    destruct (group2_ok _ _ R0 R1) as (J & E0 & E1).
    cbn [encode decode].
    enc_chars.
    cbn. rewrite J, E0, E1, !byte_of_to_Z. reflexivity.
  - (* a full group of three bytes *)
    pose proof (byte_to_Z_range b0) as R0. pose proof (byte_to_Z_range b1) as R1.
    pose proof (byte_to_Z_range b2) as R2.
    destruct (group_ok _ _ _ R0 R1 R2) as (J & E0 & E1 & E2).
    cbn [encode decode].
    enc_chars.
    cbn [andb]. rewrite J, E0, E1, E2, !byte_of_to_Z, IH. reflexivity.
Qed.
End Base64Roundtrip.

(* ------------------------------------------------------------------ *)
(** ** Helper facts about hashing, headers and the handler *)

(** The SHA-256 model against the FIPS 180-4 test vector for "abc". *)
Example sha256_abc_vector :
  to_hex (sha256 "abc") = "ba7816bf8f01cfea414140de5dae2223b00361a396177a9cb410ff61f20015ad"%string.
Proof. vm_compute. reflexivity. Qed.

Lemma sha256_hash_length (m : list Z) : length (Sha256.hash m) = 32%nat.
Proof. unfold Sha256.hash, Sha256.digest. rewrite !length_app. reflexivity. Qed.

Lemma to_hex_length (l : list Z) : String.length (to_hex l) = (2 * length l)%nat.
Proof. induction l as [|b l IH]; simpl; [reflexivity|]. rewrite IH. lia. Qed.

Lemma etag_width (s : string) : String.length (to_hex (sha256 s)) = 64%nat.
Proof. unfold sha256. rewrite to_hex_length, sha256_hash_length. reflexivity. Qed.

(* ------------------------------------------------------------------ *)
(** ** Claims *)

(** C6: for both backends, reading back what [putFileServerSide] stored
    yields the uploaded bytes; the inline backend returns
    [{BYTES_64, base64(bytes)}], and a put fails only when the object
    store is selected and does not answer. *)
Theorem storage_put_get_roundtrip (T : option string) (file : File) (w : World) :
  match putFileServerSide T file w with
  | (Ok (t, d), w') =>
      getFileServerSide (w_store w') t d = Some (contents file) /\
      (if is_s3 T then t = S3_PATH else (t, d) = (BYTES_64, Base64.encode (contents file)))
  | (Throw e, _) => is_s3 T = true /\ reachable (w_store w) = false /\ e = UPLOAD_FAILED
  end.
Proof.
  unfold putFileServerSide, bind, log_call.
  destruct (is_s3 T) eqn:Hs.
  - unfold putFileInS3, bind, uploadS3File. cbn [w_store].
    destruct (reachable (w_store w)) eqn:Hr.
    + cbn. split; [|reflexivity]. rewrite lookup_insert_eq. reflexivity.
    + auto.
  - cbn. split; [apply Base64Roundtrip.decode_encode | reflexivity].
Qed.

(** The ETag the handler sends on a served response. *)
Lemma handle_served_etag (st : ObjectStore) (req : Request) (o : HandleOpts) :
  res_status (fst (handleEnvelopeItemFileRequest st req o)) = 200 ->
  get_header "ETag" (res_headers (fst (handleEnvelopeItemFileRequest st req o)))
    = Some (etag_of o).
Proof.
  unfold handleEnvelopeItemFileRequest, etag_of.
  destruct (header_is _ _ && negb _); [discriminate|].
  destruct (getFileServerSide _ _ _); [|discriminate]. intros _.
  destruct (isDownload o), (status_eqb (status o) COMPLETED); reflexivity.
Qed.

(** C1 (as amended): on every served response the ETag is the lowercase
    hex SHA-256 of the stored [data] string of the requested version (the
    base64 text inline, the key in the object store), 64 characters wide,
    whatever bytes are served. *)
Theorem etag_is_hash_of_stored_reference (st : ObjectStore) (req : Request) (o : HandleOpts) :
  res_status (fst (handleEnvelopeItemFileRequest st req o)) = 200 ->
  get_header "ETag" (res_headers (fst (handleEnvelopeItemFileRequest st req o)))
    = Some (to_hex (sha256 (documentDataToUse o))) /\
  String.length (to_hex (sha256 (documentDataToUse o))) = 64%nat.
Proof.
  intros H. split; [apply handle_served_etag, H | apply etag_width].
Qed.

Lemma C1_witness :
  res_status (fst stub_view) = 200 /\
  get_header "ETag" (res_headers (fst stub_view))
    = Some (to_hex (sha256 (documentDataToUse
        (mkHandleOpts "stub.pdf" DRAFT
           (mkDocumentData BYTES_64 (Base64.encode stub_pdf) (Base64.encode stub_pdf))
           signed false)))) /\
  String.length (to_hex (sha256 (Base64.encode stub_pdf))) = 64%nat.
Proof.
  assert (H : res_status (fst stub_view) = 200) by (vm_compute; reflexivity).
  split; [exact H|].
  change stub_view with (handleEnvelopeItemFileRequest (mkObjectStore ∅ true 0) plain_request
    (mkHandleOpts "stub.pdf" DRAFT
       (mkDocumentData BYTES_64 (Base64.encode stub_pdf) (Base64.encode stub_pdf)) signed false)) in *.
  exact (etag_is_hash_of_stored_reference _ _ _ H).
Defined.

(** C1 refuted as stated: the stub is served back byte for byte, but its
    ETag is not the fingerprint of those bytes. *)
Lemma C1_counterexample :
  res_body (fst stub_view) = Bytes stub_pdf /\
  get_header "ETag" (res_headers (fst stub_view))
    <> Some (to_hex (Sha256.hash (map byte_to_Z stub_pdf))).
Proof. vm_compute. split; [reflexivity | discriminate]. Qed.

(** C2: the handler answers 304 with no body exactly when If-None-Match
    equals the current ETag and the request is a view; a download with a
    matching token is served in full (200 and the stored bytes). *)
Theorem not_modified_iff_token_matches_on_view (st : ObjectStore) (req : Request)
  (o : HandleOpts) (B : list byte) :
  (res_status (fst (handleEnvelopeItemFileRequest st req o)) = 304 <->
     if_none_match req = Some (etag_of o) /\ isDownload o = false) /\
  (res_status (fst (handleEnvelopeItemFileRequest st req o)) = 304 ->
     res_body (fst (handleEnvelopeItemFileRequest st req o)) = NoBody) /\
  (isDownload o = true -> if_none_match req = Some (etag_of o) ->
     getFileServerSide st (dd_type (documentData o)) (documentDataToUse o) = Some B ->
     res_status (fst (handleEnvelopeItemFileRequest st req o)) = 200 /\
     res_body (fst (handleEnvelopeItemFileRequest st req o)) = Bytes B).
Proof.
  unfold handleEnvelopeItemFileRequest, etag_of.
  assert (Hh : header_is (if_none_match req) (to_hex (sha256 (documentDataToUse o))) = true <->
               if_none_match req = Some (to_hex (sha256 (documentDataToUse o)))).
  { unfold header_is. destruct (if_none_match req) as [x|]; [|split; discriminate].
    rewrite String.eqb_eq. split; [intros ->; reflexivity | injection 1; auto]. }
  split; [|split].
  - destruct (header_is _ _) eqn:E1, (isDownload o) eqn:E2; cbn [andb negb].
    + destruct (getFileServerSide _ _ _); cbn;
        split; [discriminate | intros [_ ?]; discriminate | discriminate | intros [_ ?]; discriminate].
    + split; [intros _; split; [apply Hh; reflexivity | reflexivity] | reflexivity].
    + destruct (getFileServerSide _ _ _); cbn;
        split; [discriminate | intros [_ ?]; discriminate | discriminate | intros [_ ?]; discriminate].
    + destruct (getFileServerSide _ _ _); cbn;
        (split; [discriminate | intros [Hs _]; apply Hh in Hs; congruence]).
  - destruct (header_is _ _ && negb _); [reflexivity|].
    destruct (getFileServerSide _ _ _); cbn; discriminate.
  - intros Hd _ Hg. rewrite Hd, andb_false_r, Hg. split; reflexivity.
Qed.

(** C4: on a served response Cache-Control depends only on the envelope
    status and on whether the request is a download. *)
Theorem cache_control_policy (st : ObjectStore) (req : Request) (o : HandleOpts) :
  res_status (fst (handleEnvelopeItemFileRequest st req o)) = 200 ->
  get_header "Cache-Control" (res_headers (fst (handleEnvelopeItemFileRequest st req o))) =
    Some (if isDownload o then "no-cache, no-store, must-revalidate"
          else if status_eqb (status o) COMPLETED then "public, max-age=31536000, immutable"
          else "public, max-age=0, must-revalidate")%string /\
  (isDownload o = true ->
     get_header "Pragma" (res_headers (fst (handleEnvelopeItemFileRequest st req o))) = Some "no-cache"%string /\
     get_header "Expires" (res_headers (fst (handleEnvelopeItemFileRequest st req o))) = Some "0"%string).
Proof.
  unfold handleEnvelopeItemFileRequest.
  destruct (header_is _ _ && negb _); [discriminate|].
  destruct (getFileServerSide _ _ _); [|discriminate]. intros _.
  destruct (isDownload o), (status_eqb (status o) COMPLETED); cbn;
    (split; [reflexivity | try discriminate]); intros _; split; reflexivity.
Qed.

Lemma C4_witness :
  res_status (fst (handleEnvelopeItemFileRequest (w_store empty_world) plain_request
                     (view_opts COMPLETED false))) = 200 /\
  get_header "Cache-Control" (res_headers (fst (handleEnvelopeItemFileRequest (w_store empty_world)
     plain_request (view_opts COMPLETED false))))
    = Some "public, max-age=31536000, immutable"%string.
Proof.
  assert (H : res_status (fst (handleEnvelopeItemFileRequest (w_store empty_world) plain_request
                     (view_opts COMPLETED false))) = 200) by (vm_compute; reflexivity).
  split; [exact H|]. exact (proj1 (cache_control_policy _ _ _ H)).
Defined.

(** C7 (as amended): when reading the bytes fails (store down, missing
    key, undecodable data) and the request is not a conditional hit, the
    handler answers 404 with the fixed body "File not found". *)
Theorem storage_failure_is_404 (st : ObjectStore) (req : Request) (o : HandleOpts) :
  getFileServerSide st (dd_type (documentData o)) (documentDataToUse o) = None ->
  ~ (if_none_match req = Some (etag_of o) /\ isDownload o = false) ->
  fst (handleEnvelopeItemFileRequest st req o) = json_error 404 "File not found".
Proof.
  intros Hg Hc. unfold handleEnvelopeItemFileRequest.
  destruct (header_is (if_none_match req) (to_hex (sha256 (documentDataToUse o))) && negb (isDownload o)) eqn:E.
  - exfalso. apply Hc. apply andb_prop in E as [E1 E2].
    unfold header_is in E1. destruct (if_none_match req) as [x|]; [|discriminate].
    apply String.eqb_eq in E1. subst x. split; [reflexivity|].
    destruct (isDownload o); [discriminate | reflexivity].
  - rewrite Hg. reflexivity.
Qed.

Lemma C7_witness :
  getFileServerSide down_store S3_PATH "upload/0/contract.pdf" = None /\
  fst (handleEnvelopeItemFileRequest down_store plain_request s3_opts) = json_error 404 "File not found".
Proof.
  assert (Hg : getFileServerSide down_store S3_PATH "upload/0/contract.pdf" = None) by reflexivity.
  split; [exact Hg|]. apply storage_failure_is_404; [exact Hg|].
  intros [H _]. discriminate H.
Defined.

(** C7 refuted as stated: an object store that does not answer during an
    authorised read yields 404, not 500. *)
Lemma C7_counterexample :
  res_status (fst (handleEnvelopeItemFileRequest down_store plain_request s3_opts)) <> 500.
Proof. vm_compute. discriminate. Qed.

(** C9: a 304 is decided without consulting storage: no storage call is
    made, and the answer is the same whatever the store holds. *)
Theorem not_modified_reads_no_bytes (st : ObjectStore) (req : Request) (o : HandleOpts) :
  res_status (fst (handleEnvelopeItemFileRequest st req o)) = 304 ->
  snd (handleEnvelopeItemFileRequest st req o) = [] /\
  forall st' : ObjectStore,
    handleEnvelopeItemFileRequest st' req o = handleEnvelopeItemFileRequest st req o.
Proof.
  unfold handleEnvelopeItemFileRequest.
  destruct (header_is _ _ && negb _).
  - intros _. split; reflexivity.
  - destruct (getFileServerSide _ _ _); cbn; discriminate.
Qed.

Lemma C9_witness :
  res_status (fst (handleEnvelopeItemFileRequest down_store matching_request (view_opts DRAFT false))) = 304 /\
  snd (handleEnvelopeItemFileRequest down_store matching_request (view_opts DRAFT false)) = [].
Proof.
  assert (H : res_status (fst (handleEnvelopeItemFileRequest down_store matching_request
                                 (view_opts DRAFT false))) = 304) by (vm_compute; reflexivity).
  split; [exact H|]. exact (proj1 (not_modified_reads_no_bytes _ _ _ H)).
Defined.

(** C8: a missing file, or one larger than the configured limit, is
    answered 400 with the world untouched: no storage call, no record. *)
Theorem upload_rejects_missing_or_oversized
  (T : option string) (pdf_load : list byte -> option bool) (pdf_rewrite : list byte -> list byte)
  (limit : Z) (f : File) (w : World) :
  uploadPdfRoute T pdf_load pdf_rewrite limit None w = (Ok (json_error 400 "No file provided"), w) /\
  (size f > MAX_FILE_SIZE limit ->
   uploadPdfRoute T pdf_load pdf_rewrite limit (Some f) w = (Ok (json_error 400 "File too large"), w)).
Proof.
  split; [reflexivity|]. intros Hs. unfold uploadPdfRoute.
  replace (size f >? MAX_FILE_SIZE limit) with true by (symmetry; apply Z.gtb_lt; lia).
  reflexivity.
Qed.

(** With a limit of 0 MB any non-empty file is too large. *)
Lemma C8_witness :
  size big_file > MAX_FILE_SIZE 0 /\
  uploadPdfRoute None (fun _ => Some false) (fun b => b) 0 (Some big_file) empty_world
    = (Ok (json_error 400 "File too large"), empty_world).
Proof.
  assert (H : size big_file > MAX_FILE_SIZE 0) by (vm_compute; reflexivity).
  split; [exact H|].
  exact (proj2 (upload_rejects_missing_or_oversized None (fun _ => Some false) (fun b => b) 0
                  big_file empty_world) H).
Defined.

Section EncryptedUpload.

Variable T : option string.
Variable pdf_load : list byte -> option bool.
Variable pdf_rewrite : list byte -> list byte.
Variable f : File.
Hypothesis encrypted : pdf_load (contents f) = Some true.

Lemma putPdf_rejects_encrypted (w : World) :
  putPdfFileServerSide T pdf_load f w = (Throw INVALID_DOCUMENT_FILE, w).
Proof. unfold putPdfFileServerSide. rewrite encrypted. reflexivity. Qed.

Lemma putNormalizedPdf_rejects_encrypted (w : World) :
  putNormalizedPdfFileServerSide T pdf_load pdf_rewrite f w = (Throw INVALID_DOCUMENT_FILE, w).
Proof. unfold putNormalizedPdfFileServerSide, bind, normalizePdf. rewrite encrypted. reflexivity. Qed.

Lemma upload_route_encrypted (limit : Z) (w : World) :
  size f <= MAX_FILE_SIZE limit ->
  uploadPdfRoute T pdf_load pdf_rewrite limit (Some f) w = (Ok (json_error 500 "Upload failed"), w).
Proof.
  intros Hs. unfold uploadPdfRoute.
  replace (size f >? MAX_FILE_SIZE limit) with false by (symmetry; rewrite Z.gtb_ltb; apply Z.ltb_ge; lia).
  unfold catch, bind. rewrite putNormalizedPdf_rejects_encrypted. reflexivity.
Qed.

End EncryptedUpload.

(** C5 (as amended): an encrypted PDF never reaches [putFileServerSide]:
    both upload functions throw [INVALID_DOCUMENT_FILE] and leave the world
    (storage calls, stored objects, records) unchanged; the
    [POST /upload-pdf] route also leaves it unchanged but answers with its
    catch-all 500 "Upload failed", not with [INVALID_DOCUMENT_FILE]. *)
Theorem encrypted_pdf_never_stored
  (T : option string) (pdf_load : list byte -> option bool) (pdf_rewrite : list byte -> list byte)
  (f : File) (limit : Z) (w : World) :
  pdf_load (contents f) = Some true ->
  putPdfFileServerSide T pdf_load f w = (Throw INVALID_DOCUMENT_FILE, w) /\
  putNormalizedPdfFileServerSide T pdf_load pdf_rewrite f w = (Throw INVALID_DOCUMENT_FILE, w) /\
  (size f <= MAX_FILE_SIZE limit ->
   uploadPdfRoute T pdf_load pdf_rewrite limit (Some f) w = (Ok (json_error 500 "Upload failed"), w)).
Proof.
  intros He. split; [|split].
  - apply putPdf_rejects_encrypted, He.
  - apply putNormalizedPdf_rejects_encrypted, He.
  - apply upload_route_encrypted, He.
Qed.

Lemma C5_witness :
  load_all_encrypted (contents encrypted_file) = Some true /\
  uploadPdfRoute (Some "s3"%string) load_all_encrypted (fun b => b) 50 (Some encrypted_file) empty_world
    = (Ok (json_error 500 "Upload failed"), empty_world).
Proof.
  assert (H : load_all_encrypted (contents encrypted_file) = Some true) by reflexivity.
  split; [exact H|].
  apply (encrypted_pdf_never_stored (Some "s3"%string) load_all_encrypted (fun b => b)
           encrypted_file 50 empty_world H).
  unfold size, MAX_FILE_SIZE. simpl. lia.
Defined.

(** C5 refuted as stated: through [POST /upload-pdf] an encrypted PDF
    does not fail with [INVALID_DOCUMENT_FILE]; the route answers 500. *)
Lemma C5_counterexample :
  fst (uploadPdfRoute (Some "s3"%string) load_all_encrypted (fun b => b) 50
         (Some encrypted_file) empty_world) = Ok (json_error 500 "Upload failed") /\
  res_body (json_error 500 "Upload failed") <> JsonError "INVALID_DOCUMENT_FILE".
Proof. vm_compute. split; [reflexivity | discriminate]. Qed.

(* ------------------------------------------------------------------ *)
(** ** Authorisation outcomes of the GET routes *)










(** C10 (as amended): with a non-negative [perPage], [queryAuditLogs]
    returns at most [perPage] entries; [nextCursor] is defined exactly
    when more than [perPage] matching rows remain after starting at the
    cursor row (at the first row when the cursor is absent or empty) and
    skipping [(max(page,1) - 1) * perPage] rows (the fetch of
    [perPage + 1] rows came back full); and [currentPage] is [max(page, 1)]. *)
Theorem queryAuditLogs_page_shape (parse : AuditLog -> AuditLog) (rows : list AuditLog)
  (page_opt perPage_opt : option Z) (cursor : option string) :
  0 <= match perPage_opt with Some p => p | None => 30 end ->
  Z.of_nat (length (data (queryAuditLogs parse rows page_opt perPage_opt cursor)))
    <= match perPage_opt with Some p => p | None => 30 end /\
  (nextCursor (queryAuditLogs parse rows page_opt perPage_opt cursor) <> None <->
   Z.of_nat (length (skipn (Z.to_nat ((Z.max (match page_opt with Some p => p | None => 1 end) 1 - 1)
                                        * match perPage_opt with Some p => p | None => 30 end))
                           (from_cursor rows (prisma_cursor cursor))))
     > match perPage_opt with Some p => p | None => 30 end) /\
  currentPage (queryAuditLogs parse rows page_opt perPage_opt cursor)
    = Z.max (match page_opt with Some p => p | None => 1 end) 1.
Proof.
  unfold queryAuditLogs, findMany. cbv zeta.
  set (pp := match perPage_opt with Some p => p | None => 30 end).
  set (rest := skipn _ (from_cursor rows (prisma_cursor cursor))).
  intros Hp.
  replace (Z.to_nat (pp + 1)) with (S (Z.to_nat pp)) by lia.
  pose proof (length_firstn (S (Z.to_nat pp)) rest) as Hlen.
  set (all := map parse (firstn (S (Z.to_nat pp)) rest)).
  assert (Hall : length all = Nat.min (S (Z.to_nat pp)) (length rest))
    by (unfold all; rewrite length_map; exact Hlen).
  destruct (Z.of_nat (length all) >? pp) eqn:E; cbn [data nextCursor currentPage].
  - apply Z.gtb_lt in E.
    split; [|split; [|reflexivity]].
    + rewrite length_firstn. lia.
    + destruct (nth_error all (Z.to_nat pp)) eqn:Hn.
      * split; [intros _ | discriminate]. lia.
      * apply nth_error_None in Hn. lia.
  - rewrite Z.gtb_ltb in E. apply Z.ltb_ge in E.
    split; [lia|split; [|reflexivity]].
    split; [intros H; exfalso; apply H; reflexivity | intros H; lia].
Qed.

Lemma C10_witness :
  nextCursor (queryAuditLogs (fun l => l) [log_a; log_b] None (Some 1) None) = Some "log_b"%string /\
  currentPage (queryAuditLogs (fun l => l) [log_a; log_b] (Some 0) (Some 1) None) = 1.
Proof.
  split.
  - vm_compute. reflexivity.
  - exact (proj2 (proj2 (queryAuditLogs_page_shape (fun l => l) [log_a; log_b] (Some 0) (Some 1) None
                           ltac:(lia)))).
Defined.

(** C10 refuted as stated: two rows match, [perPage] is 1, yet on page 2
    there is no [nextCursor]. *)
Lemma C10_counterexample :
  Z.of_nat (length [log_a; log_b]) > 1 /\
  nextCursor (queryAuditLogs (fun l => l) [log_a; log_b] (Some 2) (Some 1) None) = None.
Proof. split; [cbn; lia | reflexivity]. Qed.

(* ------------------------------------------------------------------ *)
(** ** Further properties of the code *)

Lemma map_fst_obj_set (k : string) (v : JsonValue) (o : Obj) :
  map fst (obj_set k v o) =
  if existsb (fun p => String.eqb (fst p) k) o then map fst o else map fst o ++ [k].
Proof.
  unfold obj_set. destruct (existsb _ o).
  - rewrite map_map. apply map_ext. intros [a b]. cbn.
    destruct (String.eqb_spec a k); subst; reflexivity.
  - rewrite map_app. reflexivity.
Qed.

Lemma existsb_key_false (k : string) (o : Obj) :
  existsb (fun p => String.eqb (fst p) k) o = false -> ~ In k (map fst o).
Proof.
  intros E Hin. apply in_map_iff in Hin as [[a b] [Ha Hin]]. cbn in Ha. subst a.
  assert (existsb (fun p => String.eqb (fst p) k) o = true) as E'
    by (apply existsb_exists; exists (k, b); split; [exact Hin | apply String.eqb_refl]).
  congruence.
Qed.

Lemma obj_get_set (k k' : string) (v : JsonValue) (o : Obj) :
  obj_get k (obj_set k' v o) = if String.eqb k' k then Some v else obj_get k o.
Proof.
  unfold obj_get, obj_set.
  destruct (String.eqb_spec k' k) as [<-|Hk].
  - destruct (existsb _ o) eqn:E.
    + induction o as [|[a b] o IH]; cbn in *; [discriminate|].
      destruct (String.eqb_spec a k') as [->|Ha]; cbn.
      * rewrite String.eqb_refl. reflexivity.
      * rewrite (proj2 (String.eqb_neq a k') Ha). apply IH, E.
    + induction o as [|[a b] o IH]; cbn in *; [rewrite String.eqb_refl; reflexivity|].
      apply orb_false_iff in E as [E1 E2]. rewrite E1. apply IH, E2.
  - destruct (existsb _ o).
    + induction o as [|[a b] o IH]; cbn; [reflexivity|].
      destruct (String.eqb_spec a k') as [->|Ha]; cbn.
      * rewrite (proj2 (String.eqb_neq k' k) Hk). exact IH.
      * destruct (String.eqb a k); [reflexivity | exact IH].
    + induction o as [|[a b] o IH]; cbn; [rewrite (proj2 (String.eqb_neq k' k) Hk); reflexivity|].
      destruct (String.eqb a k); [reflexivity | exact IH].
Qed.

Lemma obj_spread_notin (k : string) (src dst : Obj) :
  ~ In k (map fst src) -> obj_get k (obj_spread src dst) = obj_get k dst.
Proof.
  unfold obj_spread. revert dst.
  induction src as [|[a b] src IH]; intros dst Hk; cbn in *; [reflexivity|].
  rewrite IH by tauto. rewrite obj_get_set.
  destruct (String.eqb_spec a k); [tauto | reflexivity].
Qed.

Lemma obj_spread_keys (x : string) (src dst : Obj) :
  In x (map fst (obj_spread src dst)) -> In x (map fst src) \/ In x (map fst dst).
Proof.
  unfold obj_spread. revert dst.
  induction src as [|[a b] src IH]; intros dst Hx; cbn in *; [tauto|].
  apply IH in Hx as [Hx|Hx]; [tauto|].
  rewrite map_fst_obj_set in Hx. destruct (existsb _ dst); [tauto|].
  apply in_app_or in Hx as [Hx|[<-|[]]]; tauto.
Qed.

Lemma obj_set_nodup (k : string) (v : JsonValue) (o : Obj) :
  NoDup (map fst o) -> NoDup (map fst (obj_set k v o)).
Proof.
  intros Hnd. rewrite map_fst_obj_set. destruct (existsb _ o) eqn:E; [exact Hnd|].
  apply NoDup_app. split; [exact Hnd|]. split; [|apply NoDup_singleton].
  intros x Hx Hx'. apply list_elem_of_singleton in Hx'. subst x.
  apply (existsb_key_false k o E). apply list_elem_of_In, Hx.
Qed.

Lemma obj_spread_nodup (src dst : Obj) :
  NoDup (map fst dst) -> NoDup (map fst (obj_spread src dst)).
Proof.
  unfold obj_spread. revert dst.
  induction src as [|[a b] src IH]; intros dst Hnd; cbn; [exact Hnd|].
  apply IH, obj_set_nodup, Hnd.
Qed.

Lemma obj_spread_in (k : string) (v : JsonValue) (src dst : Obj) :
  NoDup (map fst src) -> In (k, v) src -> obj_get k (obj_spread src dst) = Some v.
Proof.
  revert dst. induction src as [|[a b] src IH]; intros dst Hnd Hin; cbn in *; [tauto|].
  inversion Hnd as [|? ? Hnotin Hnd']; subst.
  destruct Hin as [[= -> ->]|Hin].
  - unfold obj_spread in *. cbn.
    change (obj_get k (obj_spread src (obj_set k v dst)) = Some v).
    rewrite obj_spread_notin.
    + rewrite obj_get_set, String.eqb_refl. reflexivity.
    + intros H. apply Hnotin, list_elem_of_In, H.
  - change (obj_get k (obj_spread src (obj_set a b dst)) = Some v). apply IH; assumption.
Qed.

Lemma obj_get_in (k : string) (v : JsonValue) (o : Obj) : obj_get k o = Some v -> In (k, v) o.
Proof.
  unfold obj_get. destruct (find _ o) as [[a b]|] eqn:Hf; [|discriminate].
  cbn. intros [= ->]. apply find_some in Hf as [Hin Ha]. cbn in Ha.
  apply String.eqb_eq in Ha. subst a. exact Hin.
Qed.

Lemma flatten_extra_spread (extra : Obj) :
  flatten_extra extra = obj_spread (map (fun p => (extra_key (fst p), snd p)) extra) [].
Proof.
  unfold flatten_extra, obj_spread. generalize (@nil (string * JsonValue)).
  induction extra as [|[a b] extra IH]; intros acc; cbn; [reflexivity|]. apply IH.
Qed.

Lemma prefix_append (s t : string) : String.prefix s (s ++ t) = true.
Proof.
  induction s as [|c s IH]; [destruct t; reflexivity|].
  change (String.prefix (String c s) (String c (s ++ t)) = true). cbn.
  destruct (ascii_dec c c); [exact IH | congruence].
Qed.

Lemma extra_key_reserved (k : string) : reserved_prefix (extra_key k) = true.
Proof.
  unfold extra_key. destruct (reserved_prefix k) eqn:E; [exact E|].
  unfold reserved_prefix. rewrite prefix_append. reflexivity.
Qed.

Lemma obj_spread_reserved (src dst : Obj) :
  Forall (fun k => reserved_prefix k = true) (map fst src) ->
  Forall (fun k => reserved_prefix k = true) (map fst dst) ->
  Forall (fun k => reserved_prefix k = true) (map fst (obj_spread src dst)).
Proof.
  rewrite !Forall_forall. intros Hs Hd x Hx. apply list_elem_of_In in Hx.
  apply obj_spread_keys in Hx as [Hx|Hx]; [apply Hs | apply Hd]; apply list_elem_of_In, Hx.
Qed.

Lemma flatten_extra_in (extra : Obj) (k : string) (v : JsonValue) :
  NoDup (map (fun p => extra_key (fst p)) extra) -> In (k, v) extra ->
  NoDup (map fst (flatten_extra extra)) /\ In (extra_key k, v) (flatten_extra extra).
Proof.
  intros Hnd Hin. rewrite flatten_extra_spread. split.
  - apply obj_spread_nodup. constructor.
  - apply obj_get_in, obj_spread_in.
    + rewrite map_map. exact Hnd.
    + apply (in_map (fun p => (extra_key (fst p), snd p)) _ _ Hin).
Qed.

Lemma logEsignEvent_shape (D : option string) (ts : string) (opts : EsignEventOpts) (o : Obj) :
  logEsignEvent D ts opts = Some o ->
  exists logEntry,
    o = obj_spread logEntry
          [("timestamp", JStr ts);
           ("level", JStr (if match ev_status opts with Some status_error => true | Some status_ok | None => false end
                                || error_truthy (ev_error opts) then "ERROR" else "INFO"));
           ("message", JStr (if match ev_status opts with Some status_error => true | Some status_ok | None => false end
                                || error_truthy (ev_error opts)
                             then "[E-SIGN ERROR] " ++ ev_step opts else "[E-SIGN] " ++ ev_step opts))]%string /\
    Forall (fun k => reserved_prefix k = true) (map fst logEntry) /\
    NoDup (map fst logEntry) /\
    (forall extra k v, ev_extra opts = Some extra ->
       NoDup (map (fun p => extra_key (fst p)) extra) -> In (k, v) extra ->
       obj_get (extra_key k) logEntry = Some v).
Proof.
  unfold logEsignEvent.
  destruct (String.eqb (ev_traceId opts) ""); [discriminate|].
  destruct (String.eqb (ev_step opts) ""); [discriminate|].
  intros [= <-]. eexists. split.
  { f_equal. destruct (ev_status opts) as [[|]|]; reflexivity. }
  split.
  - apply obj_spread_reserved.
    + rewrite flatten_extra_spread. apply obj_spread_reserved; [|constructor].
      rewrite map_map, Forall_forall. intros x Hx.
      apply list_elem_of_In, in_map_iff in Hx as [p [<- _]].
      apply extra_key_reserved.
    + repeat apply obj_spread_reserved;
        repeat match goal with |- context [match ?x with _ => _ end] => destruct x end;
        repeat constructor.
  - split.
    + repeat apply obj_spread_nodup. cbn. repeat constructor; rewrite ?list_elem_of_In; cbn; intuition discriminate.
    + intros extra k v He Hnd Hin. rewrite He.
      destruct (flatten_extra_in extra k v Hnd Hin) as [Hnd' Hin'].
      apply obj_spread_in; assumption.
Qed.

Lemma logEsignEvent_none (D : option string) (ts : string) (opts : EsignEventOpts) :
  logEsignEvent D ts opts = None <-> (ev_traceId opts = "" \/ ev_step opts = "")%string.
Proof.
  unfold logEsignEvent.
  destruct (String.eqb_spec (ev_traceId opts) ""); [split; auto|].
  destruct (String.eqb_spec (ev_step opts) ""); [split; auto|].
  split; [discriminate | intros [H|H]; contradiction].
Qed.

(** X1: [logEsignEvent] skips an event (logs nothing) exactly when its trace id or its step is empty. *)
Theorem logEsignEvent_skips_iff (D : option string) (ts : string) (opts : EsignEventOpts) :
  logEsignEvent D ts opts = None <-> (ev_traceId opts = "" \/ ev_step opts = "")%string.
Proof. apply logEsignEvent_none. Qed.

Lemma reserved_not_key (k : string) (le : Obj) :
  reserved_prefix k = false -> Forall (fun k => reserved_prefix k = true) (map fst le) ->
  ~ In k (map fst le).
Proof.
  intros Hk Hres Hin. rewrite Forall_forall in Hres.
  specialize (Hres k (proj2 (list_elem_of_In _ _) Hin)). congruence.
Qed.

(** X2: a logged event carries the time stamp it was given, level ERROR or INFO and message '[E-SIGN ERROR] step' or '[E-SIGN] step' according to whether the status is error or an error is given; no context or extra field overrides these three keys. *)
Theorem logEsignEvent_header_fields (D : option string) (ts : string) (opts : EsignEventOpts) (o : Obj) :
  logEsignEvent D ts opts = Some o ->
  let isError := match ev_status opts with Some status_error => true | Some status_ok | None => false end
                 || error_truthy (ev_error opts) in
  obj_get "timestamp" o = Some (JStr ts) /\
  obj_get "level" o = Some (JStr (if isError then "ERROR" else "INFO")) /\
  obj_get "message" o = Some (JStr (if isError then "[E-SIGN ERROR] " ++ ev_step opts
                                    else "[E-SIGN] " ++ ev_step opts))%string.
Proof.
  intros H. destruct (logEsignEvent_shape D ts opts o H) as [le [-> [Hres _]]]. cbv zeta.
  split; [|split]; (rewrite obj_spread_notin; [reflexivity | apply reserved_not_key; [reflexivity | exact Hres]]).
Qed.

Lemma logEsignEvent_header_fields_witness :
  obj_get "level" signing_record = Some (JStr "ERROR") /\
  obj_get "message" signing_record = Some (JStr "[E-SIGN ERROR] sign_start").
Proof.
  destruct (logEsignEvent_header_fields None "2026-01-01T00:00:00.000Z" signing_event signing_record
              ltac:(reflexivity)) as (_ & Hl & Hm).
  split; [exact Hl | exact Hm].
Defined.

(** X3: every [extra] entry [k, v] (with distinct recorded keys) is logged with value [v] under [k] if [k] starts with esign., org_, user_ or document_, and under [esign.k] otherwise; it wins over a core field of the same recorded name. *)
Theorem logEsignEvent_extra_fields (D : option string) (ts : string) (opts : EsignEventOpts) (o : Obj)
  (extra : Obj) (k : string) (v : JsonValue) :
  logEsignEvent D ts opts = Some o -> ev_extra opts = Some extra ->
  NoDup (map (fun p => extra_key (fst p)) extra) -> In (k, v) extra ->
  obj_get (extra_key k) o = Some v.
Proof.
  intros H He Hnd Hin.
  destruct (logEsignEvent_shape D ts opts o H) as [le [-> [_ [Hnd' Hx]]]].
  apply obj_spread_in; [exact Hnd'|]. apply obj_get_in, (Hx extra k v He Hnd Hin).
Qed.

Lemma logEsignEvent_extra_fields_witness :
  obj_get "esign.status" signing_record = Some (JStr "late").
Proof.
  exact (logEsignEvent_extra_fields None "2026-01-01T00:00:00.000Z" signing_event signing_record
           [("status", JStr "late")] "status" (JStr "late")
           ltac:(reflexivity) ltac:(reflexivity) ltac:(apply NoDup_singleton) ltac:(left; reflexivity)).
Defined.

(** X4: the keys of a logged record are distinct, and each is timestamp, level, message or starts with esign., org_, user_ or document_. *)
Theorem logEsignEvent_keys (D : option string) (ts : string) (opts : EsignEventOpts) (o : Obj) :
  logEsignEvent D ts opts = Some o ->
  NoDup (map fst o) /\
  Forall (fun k => reserved_prefix k = true \/ k = "timestamp" \/ k = "level" \/ k = "message")%string
    (map fst o).
Proof.
  intros H. destruct (logEsignEvent_shape D ts opts o H) as [le [-> [Hres _]]]. split.
  - apply obj_spread_nodup. cbn. repeat constructor; rewrite ?list_elem_of_In; cbn; intuition discriminate.
  - rewrite Forall_forall in Hres |- *. intros x Hx. apply list_elem_of_In in Hx.
    apply obj_spread_keys in Hx as [Hx|Hx].
    + left. apply Hres, list_elem_of_In, Hx.
    + cbn in Hx. intuition.
Qed.

Lemma logEsignEvent_keys_witness : NoDup (map fst signing_record).
Proof.
  exact (proj1 (logEsignEvent_keys None "2026-01-01T00:00:00.000Z" signing_event signing_record
                  ltac:(reflexivity))).
Defined.

(** X5: [extractTraceId] never returns an empty id, so an event traced with it and with a non-empty step is always logged. *)
Theorem extractTraceId_never_skipped (D : option string) (ts : string) (now : Z) (random36 : string)
  (sources : option TraceIdSources) (opts : EsignEventOpts) :
  ev_traceId opts = extractTraceId now random36 sources -> ev_step opts <> ""%string ->
  extractTraceId now random36 sources <> ""%string /\ logEsignEvent D ts opts <> None.
Proof.
  intros Ht Hs.
  assert (Hne : extractTraceId now random36 sources <> ""%string).
  { unfold extractTraceId.
    destruct sources as [[t rm m]|]; cbn;
      repeat match goal with
             | |- context [match ?x with Some _ => _ | None => _ end] => destruct x
             | |- context [String.eqb ?a ""] => destruct (String.eqb_spec a ""); cbn
             end; (assumption || discriminate). }
  split; [exact Hne|]. intros Hn. apply logEsignEvent_none in Hn as [Hn|Hn]; congruence.
Qed.

Lemma extractTraceId_never_skipped_witness :
  logEsignEvent None "2026-01-01T00:00:00.000Z"
    (s3UploadEvent 1760486400000 "k3j9x0abc" big_file "upload/0/big.pdf") <> None.
Proof.
  exact (proj2 (extractTraceId_never_skipped None "2026-01-01T00:00:00.000Z" 1760486400000 "k3j9x0abc"
                  (Some (mkTraceIdSources None None None))
                  (s3UploadEvent 1760486400000 "k3j9x0abc" big_file "upload/0/big.pdf")
                  eq_refl ltac:(cbn; discriminate))).
Defined.

(** X6: the event [putFileInS3] logs after a store is an INFO record with a generated [esign_<now>_<random>] trace id, step [sign_s3_upload_complete] and the file name, size and storage key under esign.* keys. *)
Theorem s3_upload_event_logged (D : option string) (ts : string) (now : Z) (random36 : string)
  (file : File) (key : string) :
  exists o, logEsignEvent D ts (s3UploadEvent now random36 file key) = Some o /\
    obj_get "level" o = Some (JStr "INFO") /\
    obj_get "esign.trace_id" o = Some (JStr ("esign_" ++ pretty now ++ "_" ++ random36)) /\
    obj_get "esign.step" o = Some (JStr "sign_s3_upload_complete") /\
    obj_get "esign.fileName" o = Some (JStr (name file)) /\
    obj_get "esign.fileSize" o = Some (JNum (size file)) /\
    obj_get "esign.s3Key" o = Some (JStr key).
Proof.
  eexists. split; [reflexivity|]. cbn. repeat split.
Qed.

Lemma existsb_eqb_In (x : string) (l : list string) : existsb (String.eqb x) l = true <-> In x l.
Proof.
  rewrite existsb_exists. split.
  - intros [y [Hy Hxy]]. apply String.eqb_eq in Hxy. subst y. exact Hy.
  - intros Hx. exists x. split; [exact Hx | apply String.eqb_refl].
Qed.

Lemma dedup_acc (l acc : list string) (x : string) :
  (In x (fold_left (fun acc x => if existsb (String.eqb x) acc then acc else acc ++ [x]) l acc)
     <-> In x acc \/ In x l) /\
  (NoDup acc -> NoDup (fold_left (fun acc x => if existsb (String.eqb x) acc then acc else acc ++ [x]) l acc)).
Proof.
  revert acc. induction l as [|y l IH]; intros acc; cbn; [split; [tauto | auto]|].
  destruct (existsb (String.eqb y) acc) eqn:E.
  - apply existsb_eqb_In in E. split; [|apply IH].
    rewrite (proj1 (IH acc)). split; [tauto|]. intros [H|[<-|H]]; tauto.
  - split.
    + rewrite (proj1 (IH (acc ++ [y]))), in_app_iff. cbn. tauto.
    + intros Hnd. apply IH. apply NoDup_app. split; [exact Hnd|]. split; [|apply NoDup_singleton].
      intros z Hz Hz'. apply list_elem_of_singleton in Hz'. subst z.
      apply list_elem_of_In, existsb_eqb_In in Hz. congruence.
Qed.

Lemma allowedOrigins_mem (url_origin : string -> option string) (urls : list (option string))
  (x : string) :
  (In x (allowedOrigins url_origin urls) <->
     exists u, In (Some u) urls /\ u <> ""%string /\ url_origin u = Some x /\ x <> ""%string) /\
  NoDup (allowedOrigins url_origin urls).
Proof.
  unfold allowedOrigins, dedup. split; [|apply dedup_acc; constructor].
  rewrite (proj1 (dedup_acc _ [] x)), in_flat_map. cbn. split.
  - intros [[] | [o [Ho Hx]]]. destruct o as [y|]; [|destruct Hx].
    destruct Hx as [<-|[]]. apply filter_In in Ho as [Ho Ht].
    apply in_map_iff in Ho as [url [Hu Hin]]. apply filter_In in Hin as [Hin Hurl].
    destruct url as [u|]; [|discriminate]. exists u.
    unfold truthy_str in Ht, Hurl. apply negb_true_iff, String.eqb_neq in Ht, Hurl. auto.
  - intros (u & Hin & Hu & Ho & Hx). right. exists (Some x). split; [|left; reflexivity].
    apply filter_In. split.
    + apply in_map_iff. exists (Some u). split; [exact Ho|]. apply filter_In. split; [exact Hin|].
      cbn. apply negb_true_iff, String.eqb_neq, Hu.
    + cbn. apply negb_true_iff, String.eqb_neq, Hx.
Qed.

(** X7: [allowedOrigins] holds exactly the non-empty origins of the configured non-empty URLs whose parsing succeeds, each once. *)
Theorem allowedOrigins_spec (url_origin : string -> option string) (urls : list (option string))
  (x : string) :
  (In x (allowedOrigins url_origin urls) <->
     exists u, In (Some u) urls /\ u <> ""%string /\ url_origin u = Some x /\ x <> ""%string) /\
  NoDup (allowedOrigins url_origin urls).
Proof. apply allowedOrigins_mem. Qed.

(** X8: the Origin middleware lets a request through iff it has no Origin header, an empty one, or the origin of one of the configured URLs; otherwise it answers the fixed 403 Forbidden body. *)
Theorem originGuard_outcome (url_origin : string -> option string) (urls : list (option string))
  (headerOrigin : option string) :
  (originGuard (allowedOrigins url_origin urls) headerOrigin = None <->
     headerOrigin = None \/ headerOrigin = Some ""%string \/
     exists u, In (Some u) urls /\ u <> ""%string /\ url_origin u = headerOrigin) /\
  (originGuard (allowedOrigins url_origin urls) headerOrigin = None \/
   originGuard (allowedOrigins url_origin urls) headerOrigin
     = Some (403, mkAuthJson None "Forbidden" (Some 403))).
Proof.
  unfold originGuard. destruct headerOrigin as [o|]; [|split; [split; auto | auto]].
  destruct (String.eqb_spec o "") as [->|Ho]; cbn; [split; [split; auto | auto]|].
  destruct (existsb (String.eqb o) (allowedOrigins url_origin urls)) eqn:E; cbn.
  - split; [|auto]. split; [intros _|reflexivity]. right; right.
    apply existsb_eqb_In, allowedOrigins_mem in E as (u & Hin & Hu & Hx & _). eauto.
  - split; [|auto]. split; [discriminate|].
    intros [H|[H|(u & Hin & Hu & Hx)]]; try congruence. exfalso.
    assert (In o (allowedOrigins url_origin urls)) as Hin'
      by (apply allowedOrigins_mem; eauto).
    apply existsb_eqb_In in Hin'. congruence.
Qed.

(** X9: the CORS origin callback echoes the request origin exactly when the origin is non-empty and the Origin middleware lets it through, and never answers a different origin. *)
Theorem corsOrigin_agrees_with_guard (allowed : list string) (origin : string) :
  (corsOrigin allowed origin = Some origin <->
     origin <> ""%string /\ originGuard allowed (Some origin) = None) /\
  (corsOrigin allowed origin = None \/ corsOrigin allowed origin = Some origin).
Proof.
  unfold corsOrigin, originGuard.
  destruct (String.eqb_spec origin "") as [->|Ho]; cbn.
  - split; [split; [discriminate | intros [H _]; congruence] | auto].
  - destruct (existsb (String.eqb origin) allowed); cbn; split; auto.
    + split; auto.
    + split; [discriminate | intros [_ H]; discriminate].
Qed.

(** X10: the [statusCode] of the error body differs from the HTTP status only for an [AppError] whose status code is missing or 0 (answered 500); any error that is neither an HTTPException nor an AppError is answered with the fixed message 'Internal Server Error'. *)
Theorem onError_status_agreement (err : ThrownError) :
  (aj_statusCode (snd (onError err)) <> Some (fst (onError err)) <->
     exists code message sc, err = AppError code message sc /\ (sc = None \/ sc = Some 0)) /\
  (forall message, aj_message (snd (onError (OtherError message))) = "Internal Server Error"%string).
Proof.
  split; [|reflexivity].
  destruct err as [s m | c m [s|] | m]; cbn.
  - split; [congruence | intros (? & ? & ? & ? & _); discriminate].
  - destruct (Z.eqb_spec s 0) as [->|Hs]; cbn.
    + split; [intros _; exists c, m, (Some 0); auto | intros _; discriminate].
    + split; [congruence | intros (? & ? & ? & [= <- <- <-] & [H|H]); congruence].
  - split; [intros _; exists c, m, None; auto | intros _; discriminate].
  - split; [congruence | intros (? & ? & ? & ? & _); discriminate].
Qed.

Lemma putFileServerSide_effect (T : option string) (file : File) (w : World) :
  match putFileServerSide T file w with
  | (Ok (t, d), w') => w_records w' = w_records w /\ w_calls w' = w_calls w ++ [PutFile t] /\
                       getFileServerSide (w_store w') t d = Some (contents file)
  | (Throw e, w') => e = UPLOAD_FAILED /\ is_s3 T = true /\ reachable (w_store w) = false /\
                     w_records w' = w_records w
  end.
Proof.
  unfold putFileServerSide, bind, log_call.
  destruct (is_s3 T) eqn:Hs.
  - unfold putFileInS3, bind, uploadS3File. cbn [w_store].
    destruct (reachable (w_store w)) eqn:Hr; cbn.
    + split; [reflexivity | split; [reflexivity|]]. rewrite lookup_insert_eq. reflexivity.
    + auto.
  - cbn. split; [reflexivity | split; [reflexivity | apply Base64Roundtrip.decode_encode]].
Qed.

Lemma put_then_record (T : option string) (g : File) (w : World) :
  match bind (putFileServerSide T g) createDocumentData w with
  | (Ok td, w') => w_records w' = w_records w ++ [td] /\ w_calls w' = w_calls w ++ [PutFile (fst td)] /\
                   getFileServerSide (w_store w') (fst td) (snd td) = Some (contents g)
  | (Throw e, w') => e = UPLOAD_FAILED /\ is_s3 T = true /\ reachable (w_store w) = false /\
                     w_records w' = w_records w
  end.
Proof.
  unfold bind. pose proof (putFileServerSide_effect T g w) as He.
  destruct (putFileServerSide T g w) as [[[t d]|e] w'].
  - cbn. destruct He as (Hr & Hc & Hg). rewrite Hr, Hc. auto.
  - exact He.
Qed.

(** X11: [putPdfFileServerSide] either stores a parsable unencrypted PDF, appends exactly one document-data record and one storage call, and reads back the uploaded bytes, or throws: INVALID_DOCUMENT_FILE leaving the world unchanged, or UPLOAD_FAILED when the object store is selected and unreachable, leaving the records unchanged. *)
Theorem putPdf_outcome (T : option string) (pdf_load : list byte -> option bool) (f : File) (w : World) :
  match putPdfFileServerSide T pdf_load f w with
  | (Ok td, w') =>
      pdf_load (contents f) = Some false /\ w_records w' = w_records w ++ [td] /\
      w_calls w' = w_calls w ++ [PutFile (fst td)] /\
      getFileServerSide (w_store w') (fst td) (snd td) = Some (contents f)
  | (Throw e, w') =>
      (e = INVALID_DOCUMENT_FILE /\ pdf_load (contents f) <> Some false /\ w' = w) \/
      (e = UPLOAD_FAILED /\ pdf_load (contents f) = Some false /\ is_s3 T = true /\
       reachable (w_store w) = false /\ w_records w' = w_records w)
  end.
Proof.
  unfold putPdfFileServerSide.
  destruct (pdf_load (contents f)) as [[|]|] eqn:Hl; cbn.
  - left. split; [reflexivity | split; [discriminate | reflexivity]].
  - destruct (ends_with ".pdf" (name f));
      [pose proof (put_then_record T f w) as H | pose proof (put_then_record T (mkFile (name f ++ ".pdf") (ftype f) (contents f)) w) as H];
      (destruct (bind _ createDocumentData w) as [[td|e] w']; [split; [reflexivity | exact H] | right; destruct H as (-> & H); auto]).
  - left. split; [reflexivity | split; [discriminate | reflexivity]].
Qed.

Lemma putNormalized_effect (T : option string) (pdf_load : list byte -> option bool)
  (pdf_rewrite : list byte -> list byte) (f : File) (w : World) :
  match putNormalizedPdfFileServerSide T pdf_load pdf_rewrite f w with
  | (Ok td, w') =>
      pdf_load (contents f) = Some false /\ w_records w' = w_records w ++ [td] /\
      w_calls w' = w_calls w ++ [PutFile (fst td)] /\
      getFileServerSide (w_store w') (fst td) (snd td) = Some (pdf_rewrite (contents f))
  | (Throw e, w') =>
      w_records w' = w_records w /\
      (pdf_load (contents f) = Some false -> is_s3 T = true /\ reachable (w_store w) = false)
  end.
Proof.
  unfold putNormalizedPdfFileServerSide, normalizePdf.
  destruct (pdf_load (contents f)) as [[|]|] eqn:Hl; cbn; [split; [reflexivity | discriminate]| |split; [reflexivity | discriminate]].
  pose proof (put_then_record T (mkFile (if ends_with ".pdf" (name f) then name f else (name f ++ ".pdf")%string)
                                  "application/pdf" (pdf_rewrite (contents f))) w) as H.
  unfold bind in H |- *.
  destruct (putFileServerSide _ _ w) as [[td|e] w'].
  - split; [reflexivity | exact H].
  - destruct H as (_ & Hs & Hr & Hrec). split; [exact Hrec | auto].
Qed.

(** X12: [putNormalizedPdfFileServerSide] stores the normalized bytes (not the uploaded ones) under exactly one new record and one storage call; when it throws, no record is created. *)
Theorem putNormalized_stores_normalized (T : option string) (pdf_load : list byte -> option bool)
  (pdf_rewrite : list byte -> list byte) (f : File) (w : World) :
  match putNormalizedPdfFileServerSide T pdf_load pdf_rewrite f w with
  | (Ok td, w') =>
      pdf_load (contents f) = Some false /\ w_records w' = w_records w ++ [td] /\
      w_calls w' = w_calls w ++ [PutFile (fst td)] /\
      getFileServerSide (w_store w') (fst td) (snd td) = Some (pdf_rewrite (contents f))
  | (Throw e, w') =>
      w_records w' = w_records w /\
      (pdf_load (contents f) = Some false -> is_s3 T = true /\ reachable (w_store w) = false)
  end.
Proof. apply putNormalized_effect. Qed.

(** X13: POST /upload-pdf with a file never throws: it answers 200 with the stored document data, one new record and the normalized bytes readable, or 400/500 with no record created. *)
Theorem uploadPdfRoute_always_answers (T : option string) (pdf_load : list byte -> option bool)
  (pdf_rewrite : list byte -> list byte) (limit : Z) (f : File) (w : World) :
  match uploadPdfRoute T pdf_load pdf_rewrite limit (Some f) w with
  | (Ok resp, w') =>
      (res_status resp = 200 /\
       exists td, res_body resp = JsonDocumentData td /\ w_records w' = w_records w ++ [td] /\
                  getFileServerSide (w_store w') (fst td) (snd td) = Some (pdf_rewrite (contents f))) \/
      ((res_status resp = 400 \/ res_status resp = 500) /\ w_records w' = w_records w)
  | (Throw _, _) => False
  end.
Proof.
  unfold uploadPdfRoute.
  destruct (size f >? MAX_FILE_SIZE limit); cbn; [right; auto|].
  unfold catch, bind. pose proof (putNormalized_effect T pdf_load pdf_rewrite f w) as H.
  destruct (putNormalizedPdfFileServerSide T pdf_load pdf_rewrite f w) as [[td|e] w']; cbn.
  - left. destruct H as (_ & Hr & _ & Hg). split; [reflexivity|]. exists td. auto.
  - right. destruct H as [Hr _]. auto.
Qed.

(** X14: a parsable unencrypted PDF within the size limit is stored and answered 200 with its document data as JSON, unless the object store is selected and unreachable. *)
Theorem upload_within_limit_stored (T : option string) (pdf_load : list byte -> option bool)
  (pdf_rewrite : list byte -> list byte) (limit : Z) (f : File) (w : World) :
  size f <= MAX_FILE_SIZE limit -> pdf_load (contents f) = Some false ->
  (is_s3 T = false \/ reachable (w_store w) = true) ->
  exists td,
    fst (uploadPdfRoute T pdf_load pdf_rewrite limit (Some f) w)
      = Ok (mkResponse 200 [("Content-Type", "application/json")]%string (JsonDocumentData td)) /\
    w_records (snd (uploadPdfRoute T pdf_load pdf_rewrite limit (Some f) w)) = w_records w ++ [td] /\
    getFileServerSide (w_store (snd (uploadPdfRoute T pdf_load pdf_rewrite limit (Some f) w))) (fst td) (snd td)
      = Some (pdf_rewrite (contents f)).
Proof.
  intros Hs Hl Ht. unfold uploadPdfRoute.
  replace (size f >? MAX_FILE_SIZE limit) with false by (symmetry; rewrite Z.gtb_ltb; apply Z.ltb_ge; lia).
  unfold catch, bind. pose proof (putNormalized_effect T pdf_load pdf_rewrite f w) as H.
  destruct (putNormalizedPdfFileServerSide T pdf_load pdf_rewrite f w) as [[td|e] w']; cbn.
  - destruct H as (_ & Hr & _ & Hg). exists td. auto.
  - destruct H as [_ H]. destruct (H Hl) as [H1 H2]. destruct Ht; congruence.
Qed.

Lemma upload_within_limit_stored_witness :
  exists td,
    fst (uploadPdfRoute None load_all_plain (fun b => b) 1 (Some big_file) empty_world)
      = Ok (mkResponse 200 [("Content-Type", "application/json")]%string (JsonDocumentData td)).
Proof.
  destruct (upload_within_limit_stored None load_all_plain (fun b => b) 1 big_file empty_world
              ltac:(vm_compute; intros H; discriminate H) eq_refl (or_introl eq_refl)) as (td & Hr & _).
  exists td. exact Hr.
Defined.

Lemma substring_append_left (s t : string) : substring 0 (String.length s) (s ++ t) = s.
Proof.
  induction s as [|c s IH]; [destruct t; reflexivity|].
  change (String c (substring 0 (String.length s) (s ++ t)) = String c s). rewrite IH. reflexivity.
Qed.

Lemma substring_append_right (s t : string) :
  substring (String.length s) (String.length t) (s ++ t) = t.
Proof.
  induction s as [|c s IH].
  - change (substring 0 (String.length t) t = t). induction t as [|c t IH]; [reflexivity|].
    change (String c (substring 0 (String.length t) t) = String c t). rewrite IH. reflexivity.
  - exact IH.
Qed.

Lemma length_append_string (s t : string) :
  String.length (s ++ t) = (String.length s + String.length t)%nat.
Proof. induction s as [|c s IH]; simpl; [reflexivity|]. rewrite IH. reflexivity. Qed.

Lemma strip_pdf_suffix (t : string) : strip_pdf (t ++ ".pdf") = t.
Proof.
  pose proof (substring_append_right t ".pdf") as Hr.
  pose proof (substring_append_left t ".pdf") as Hl.
  pose proof (length_append_string t ".pdf") as Hn.
  cbn [String.length] in Hr, Hn.
  unfold strip_pdf, ends_with. cbv zeta. rewrite Hn. cbn [String.length].
  replace (String.length t + 4 - 4)%nat with (String.length t) by lia.
  rewrite Hr, String.eqb_refl.
  replace (4 <=? String.length t + 4)%nat with true by (symmetry; apply Nat.leb_le; lia).
  exact Hl.
Qed.

(** X15: a served download of an item titled [t.pdf], with [t] made of
    printable ASCII other than [/] and [%], is an attachment named
    [t_signed.pdf] for the signed version and [t.pdf] for the original,
    quoted with every double quote and backslash escaped. *)
Theorem download_content_disposition (st : ObjectStore) (req : Request) (o : HandleOpts) (t : string) :
  forallb plain_filename_char (list_ascii_of_string t) = true ->
  title o = (t ++ ".pdf")%string -> isDownload o = true ->
  res_status (fst (handleEnvelopeItemFileRequest st req o)) = 200 ->
  get_header "Content-Disposition" (res_headers (fst (handleEnvelopeItemFileRequest st req o)))
    = Some (contentDisposition (t ++ match version o with signed => "_signed.pdf" | original => ".pdf" end)).
Proof.
  intros _ Ht Hd. unfold handleEnvelopeItemFileRequest. rewrite Hd, andb_false_r.
  destruct (getFileServerSide _ _ _); [|discriminate]. intros _.
  rewrite Ht, strip_pdf_suffix. destruct (version o); reflexivity.
Qed.

Lemma download_content_disposition_witness :
  get_header "Content-Disposition"
    (res_headers (fst (handleEnvelopeItemFileRequest (w_store empty_world) plain_request (view_opts DRAFT true))))
    = Some (contentDisposition "contract_signed.pdf").
Proof.
  exact (download_content_disposition (w_store empty_world) plain_request (view_opts DRAFT true) "contract"
           eq_refl eq_refl eq_refl ltac:(vm_compute; reflexivity)).
Defined.

(** X16: a view (not a download) never sets Content-Disposition, Pragma or Expires. *)
Theorem view_has_no_download_headers (st : ObjectStore) (req : Request) (o : HandleOpts) :
  isDownload o = false ->
  get_header "Content-Disposition" (res_headers (fst (handleEnvelopeItemFileRequest st req o))) = None /\
  get_header "Pragma" (res_headers (fst (handleEnvelopeItemFileRequest st req o))) = None /\
  get_header "Expires" (res_headers (fst (handleEnvelopeItemFileRequest st req o))) = None.
Proof.
  intros Hd. unfold handleEnvelopeItemFileRequest. rewrite Hd.
  destruct (header_is _ _ && negb false); [auto|].
  destruct (getFileServerSide _ _ _); [|auto].
  destruct (status_eqb (status o) COMPLETED); auto.
Qed.

Lemma view_has_no_download_headers_witness :
  get_header "Content-Disposition"
    (res_headers (fst (handleEnvelopeItemFileRequest (w_store empty_world) plain_request (view_opts COMPLETED false))))
    = None.
Proof.
  exact (proj1 (view_has_no_download_headers (w_store empty_world) plain_request (view_opts COMPLETED false)
                  eq_refl)).
Defined.

(** X17: for inline data, a download answers 200 with the decoded bytes of the requested version: the current data for [signed], the initial data for [original]. *)
Theorem download_serves_requested_version (st : ObjectStore) (req : Request) (o : HandleOpts)
  (Bs Bo : list byte) :
  dd_type (documentData o) = BYTES_64 ->
  dd_data (documentData o) = Base64.encode Bs -> dd_initialData (documentData o) = Base64.encode Bo ->
  isDownload o = true ->
  res_status (fst (handleEnvelopeItemFileRequest st req o)) = 200 /\
  res_body (fst (handleEnvelopeItemFileRequest st req o))
    = Bytes (match version o with signed => Bs | original => Bo end).
Proof.
  intros Ht Hs Ho Hd. unfold handleEnvelopeItemFileRequest, documentDataToUse.
  rewrite Hd, andb_false_r, Ht.
  destruct (version o); [rewrite Hs | rewrite Ho]; cbn [getFileServerSide];
    rewrite Base64Roundtrip.decode_encode; split; reflexivity.
Qed.

Lemma download_serves_requested_version_witness :
  res_body (fst (handleEnvelopeItemFileRequest (w_store empty_world) plain_request original_download_opts))
    = Bytes [x25; x50; x44; x46].
Proof.
  exact (proj2 (download_serves_requested_version (w_store empty_world) plain_request original_download_opts
                  stub_pdf [x25; x50; x44; x46] eq_refl eq_refl eq_refl eq_refl)).
Defined.

Ltac not_served H := cbn in H; destruct H as [H|H]; discriminate H.

(** X18: the session view route serves a file (200 or 304) only for a resolved non-zero user with access to the team of an existing envelope whose item with the requested id has document data. *)
Theorem view_served_only_to_team_members (svc : Services) (db : list Envelope) (st : ObjectStore)
  (req : Request) (eid iid : string) :
  let r := fst (getEnvelopeItemView svc db st req eid iid) in
  res_status r = 200 \/ res_status r = 304 ->
  exists uid env item dd,
    truthy_id (match query_token req with
               | Some t => if String.eqb t "" then session_user req else verifyEmbeddingPresignToken svc t
               | None => session_user req end) = Some uid /\
    find_envelope db eid = Some env /\
    hd_error (items_with_id env iid) = Some item /\
    getTeamById svc uid (e_teamId env) = true /\
    ei_documentData item = Some dd.
Proof.
  cbv zeta. unfold getEnvelopeItemView. intros H.
  destruct (truthy_id _) as [uid|] eqn:Hu; [|not_served H].
  unfold serveForUser in H.
  destruct (find_envelope db eid) as [env|] eqn:He; [|not_served H].
  destruct (items_with_id env iid) as [|item rest] eqn:Hi; [not_served H|].
  destruct (getTeamById svc uid (e_teamId env)) eqn:Hg; [|not_served H].
  destruct (ei_documentData item) as [dd|] eqn:Hd; [|not_served H].
  exists uid, env, item, dd. rewrite Hi. repeat split; auto.
Qed.

Lemma view_served_only_to_team_members_witness :
  res_status (fst (getEnvelopeItemView team_services [env_1] (w_store empty_world) member_request
                     "envelope_1" "item_1")) = 200 /\
  exists uid env, find_envelope [env_1] "envelope_1" = Some env /\ getTeamById team_services uid (e_teamId env) = true.
Proof.
  assert (Hs : res_status (fst (getEnvelopeItemView team_services [env_1] (w_store empty_world) member_request
                                  "envelope_1" "item_1")) = 200) by (vm_compute; reflexivity).
  split; [exact Hs|].
  destruct (view_served_only_to_team_members team_services [env_1] (w_store empty_world) member_request
              "envelope_1" "item_1" (or_introl Hs)) as (uid & env & item & dd & _ & He & _ & Hg & _).
  exists uid, env. split; [exact He | exact Hg].
Defined.

(** X19: the session download route answers 200 only for a signed-in user with access to the team of an existing envelope whose item with the requested id has document data. *)
Theorem download_served_only_to_team_members (svc : Services) (db : list Envelope) (st : ObjectStore)
  (req : Request) (eid iid : string) (v : Version) :
  res_status (fst (getEnvelopeItemDownload svc db st req eid iid v)) = 200 ->
  exists uid env item dd,
    session_user req = Some uid /\
    find_envelope db eid = Some env /\
    hd_error (items_with_id env iid) = Some item /\
    getTeamById svc uid (e_teamId env) = true /\
    ei_documentData item = Some dd.
Proof.
  unfold getEnvelopeItemDownload. intros H.
  destruct (session_user req) as [uid|] eqn:Hu; [|discriminate H].
  unfold serveForUser in H.
  destruct (find_envelope db eid) as [env|] eqn:He; [|discriminate H].
  destruct (items_with_id env iid) as [|item rest] eqn:Hi; [discriminate H|].
  destruct (getTeamById svc uid (e_teamId env)) eqn:Hg; [|discriminate H].
  destruct (ei_documentData item) as [dd|] eqn:Hd; [|discriminate H].
  exists uid, env, item, dd. rewrite Hi. repeat split; auto.
Qed.

Lemma download_served_only_to_team_members_witness :
  res_status (fst (getEnvelopeItemDownload team_services [env_1] (w_store empty_world) member_request
                     "envelope_1" "item_1" original)) = 200 /\
  exists uid, session_user member_request = Some uid.
Proof.
  assert (Hs : res_status (fst (getEnvelopeItemDownload team_services [env_1] (w_store empty_world) member_request
                                  "envelope_1" "item_1" original)) = 200) by (vm_compute; reflexivity).
  split; [exact Hs|].
  destruct (download_served_only_to_team_members team_services [env_1] (w_store empty_world) member_request
              "envelope_1" "item_1" original Hs) as (uid & _ & _ & _ & Hu & _).
  exists uid. exact Hu.
Defined.

Lemma find_item_by_token_some (db : list Envelope) (tok iid : string) (env : Envelope) (item : EnvelopeItem) :
  find_item_by_token db tok iid = Some (env, item) ->
  In env db /\ In item (e_items env) /\ ei_id item = iid /\ token_matches tok env = true.
Proof.
  unfold find_item_by_token. intros H.
  apply find_some in H as [Hin Hp]. cbn in Hp.
  apply andb_true_iff in Hp as [Hid Htok]. apply String.eqb_eq in Hid.
  apply in_flat_map in Hin as [env' [Henv Hm]]. apply in_map_iff in Hm as [item' [Heq Hitem]].
  injection Heq as <- <-. auto.
Qed.

(** X20: the token routes serve a file (200 or 304) only from an item with the requested id of an envelope the token belongs to: its QR token for a token starting with qr_, one of its recipient tokens otherwise. *)
Theorem token_routes_serve_only_matching_envelopes (db : list Envelope) (st : ObjectStore)
  (req : Request) (tok iid : string) (v : Version) (dl : bool) :
  let r := fst (serveByToken db st req tok iid v dl) in
  res_status r = 200 \/ res_status r = 304 ->
  exists env item,
    In env db /\ In item (e_items env) /\ ei_id item = iid /\
    (if String.prefix "qr_" tok then e_qrToken env = Some tok else In tok (e_recipientTokens env)).
Proof.
  cbv zeta. unfold serveByToken. intros H.
  destruct (find_item_by_token db tok iid) as [[env item]|] eqn:Hf; [|not_served H].
  apply find_item_by_token_some in Hf as (Henv & Hitem & Hid & Htok).
  exists env, item. repeat split; auto.
  unfold token_matches in Htok. destruct (String.prefix "qr_" tok).
  - destruct (e_qrToken env) as [q|]; [|discriminate]. apply String.eqb_eq in Htok. subst. reflexivity.
  - apply existsb_exists in Htok as [x [Hx Heq]]. apply String.eqb_eq in Heq. subst. exact Hx.
Qed.

Lemma token_routes_serve_only_matching_envelopes_witness :
  res_status (fst (serveByToken [env_1] (w_store empty_world) plain_request "tok_alice" "item_1" signed false)) = 200 /\
  exists env, In env [env_1] /\ In "tok_alice"%string (e_recipientTokens env).
Proof.
  assert (Hs : res_status (fst (serveByToken [env_1] (w_store empty_world) plain_request "tok_alice" "item_1"
                                  signed false)) = 200) by (vm_compute; reflexivity).
  split; [exact Hs|].
  destruct (token_routes_serve_only_matching_envelopes [env_1] (w_store empty_world) plain_request
              "tok_alice" "item_1" signed false (or_introl Hs)) as (env & item & Hin & _ & _ & Ht).
  exists env. split; [exact Hin | exact Ht].
Defined.

(** X21: on the view route a non-empty token query parameter replaces the session: the request is handled as the user the presign token resolves to (as anonymous when it is rejected); an empty token is ignored. *)
Theorem presign_token_overrides_session (svc : Services) (db : list Envelope) (st : ObjectStore)
  (inm : option string) (su : option Z) (t eid iid : string) :
  t <> ""%string ->
  getEnvelopeItemView svc db st (mkRequest inm su (Some t)) eid iid
    = getEnvelopeItemView svc db st (mkRequest inm (verifyEmbeddingPresignToken svc t) None) eid iid /\
  getEnvelopeItemView svc db st (mkRequest inm su (Some ""%string)) eid iid
    = getEnvelopeItemView svc db st (mkRequest inm su None) eid iid.
Proof.
  intros Ht. split; [|reflexivity].
  unfold getEnvelopeItemView. cbn [query_token session_user].
  apply String.eqb_neq in Ht. rewrite Ht. reflexivity.
Qed.

Lemma presign_token_overrides_session_witness :
  getEnvelopeItemView team_services [env_1] (w_store empty_world) (mkRequest None (Some 5) (Some "embed_tok"%string))
    "envelope_1" "item_1"
  = getEnvelopeItemView team_services [env_1] (w_store empty_world) (mkRequest None None None) "envelope_1" "item_1".
Proof.
  exact (proj1 (presign_token_overrides_session team_services [env_1] (w_store empty_world) None (Some 5)
                  "embed_tok" "envelope_1" "item_1" ltac:(discriminate))).
Defined.

Lemma firstn_add_split {A} (a b : nat) (l : list A) :
  firstn (a + b) l = firstn a l ++ firstn b (skipn a l).
Proof.
  revert l; induction a as [|a IH]; intros l; [reflexivity|].
  destruct l as [|x l]; [destruct b; reflexivity|].
  cbn. rewrite IH. reflexivity.
Qed.

Lemma queryAuditLogs_slice (parse : AuditLog -> AuditLog) (rows : list AuditLog)
  (page_opt perPage_opt : option Z) (cursor : option string) :
  let pg := match page_opt with Some p => p | None => 1 end in
  let pp := match perPage_opt with Some p => p | None => 30 end in
  let X := skipn (Z.to_nat ((Z.max pg 1 - 1) * pp)) (from_cursor rows (prisma_cursor cursor)) in
  0 <= pp ->
  data (queryAuditLogs parse rows page_opt perPage_opt cursor) = map parse (firstn (Z.to_nat pp) X) /\
  nextCursor (queryAuditLogs parse rows page_opt perPage_opt cursor)
    = option_map (fun r => al_id (parse r)) (nth_error X (Z.to_nat pp)) /\
  count (queryAuditLogs parse rows page_opt perPage_opt cursor) = Z.of_nat (length rows) /\
  currentPage (queryAuditLogs parse rows page_opt perPage_opt cursor) = Z.max pg 1.
Proof.
  cbv zeta. intros Hpp. unfold queryAuditLogs, findMany. cbn [data nextCursor count currentPage].
  set (pg := match page_opt with Some p => p | None => 1 end).
  set (pp := match perPage_opt with Some p => p | None => 30 end) in *.
  set (X := skipn (Z.to_nat ((Z.max pg 1 - 1) * pp)) (from_cursor rows (prisma_cursor cursor))).
  replace (Z.to_nat (pp + 1)) with (Z.to_nat pp + 1)%nat by lia.
  rewrite length_map, length_firstn.
  destruct (Z.of_nat (Nat.min (Z.to_nat pp + 1) (length X)) >? pp) eqn:Hn.
  - apply Z.gtb_lt in Hn.
    rewrite firstn_map, firstn_firstn, Nat.min_l by lia.
    rewrite nth_error_map, nth_error_firstn.
    destruct (Z.to_nat pp <? Z.to_nat pp + 1)%nat eqn:Hlt; [|apply Nat.ltb_ge in Hlt; lia].
    destruct (nth_error X (Z.to_nat pp)); repeat split; reflexivity.
  - rewrite Z.gtb_ltb, Z.ltb_ge in Hn.
    assert (HX : (length X <= Z.to_nat pp)%nat) by lia.
    rewrite firstn_all2 by lia. rewrite (firstn_all2 (n := Z.to_nat pp) X) by exact HX.
    rewrite (proj2 (nth_error_None X (Z.to_nat pp))) by exact HX.
    repeat split; reflexivity.
Qed.

(** X23: page [p] (at least 1) of size [n >= 0] holds the parsed rows at positions [(p-1)n] to [pn-1] counted from the cursor row (from the first row when the cursor is absent or empty); [nextCursor] is the id of the parsed row right after them, if there is one; [count] is the number of all matching rows, cursor and page aside. *)
Theorem queryAuditLogs_page_slice (parse : AuditLog -> AuditLog) (rows : list AuditLog)
  (page_opt perPage_opt : option Z) (cursor : option string) :
  let pg := match page_opt with Some p => p | None => 1 end in
  let pp := match perPage_opt with Some p => p | None => 30 end in
  let X := skipn (Z.to_nat ((Z.max pg 1 - 1) * pp)) (from_cursor rows (prisma_cursor cursor)) in
  0 <= pp ->
  data (queryAuditLogs parse rows page_opt perPage_opt cursor) = map parse (firstn (Z.to_nat pp) X) /\
  nextCursor (queryAuditLogs parse rows page_opt perPage_opt cursor)
    = option_map (fun r => al_id (parse r)) (nth_error X (Z.to_nat pp)) /\
  count (queryAuditLogs parse rows page_opt perPage_opt cursor) = Z.of_nat (length rows).
Proof.
  intros pg pp X Hpp.
  destruct (queryAuditLogs_slice parse rows page_opt perPage_opt cursor Hpp) as (Hd & Hn & Hc & _).
  auto.
Qed.

Lemma queryAuditLogs_page_slice_witness :
  data (queryAuditLogs (fun l => l) [log_a; log_b] (Some 2) (Some 1) None) = [log_b] /\
  count (queryAuditLogs (fun l => l) [log_a; log_b] (Some 2) (Some 1) None) = 2.
Proof.
  destruct (queryAuditLogs_page_slice (fun l => l) [log_a; log_b] (Some 2) (Some 1) None ltac:(cbn; lia))
    as (Hd & _ & Hc).
  split; [exact Hd | exact Hc].
Defined.

Lemma concat_pages {A} (N m : nat) (l : list A) :
  concat (map (fun k => firstn N (skipn ((k - 1) * N) l)) (seq 1 m)) = firstn (m * N) l.
Proof.
  induction m as [|m IH]; [reflexivity|].
  rewrite seq_S, map_app, concat_app, IH. cbn [map concat].
  replace (1 + m - 1)%nat with m by lia. rewrite app_nil_r.
  replace (S m * N)%nat with (m * N + N)%nat by lia.
  rewrite firstn_add_split. reflexivity.
Qed.

(** X24: without a cursor and with a positive page size, the pages 1 to [totalPages] together return every matching audit log once, in order. *)
Theorem queryAuditLogs_pages_cover (parse : AuditLog -> AuditLog) (rows : list AuditLog) (n : Z) :
  0 < n ->
  concat (map (fun k => data (queryAuditLogs parse rows (Some (Z.of_nat k)) (Some n) None))
              (seq 1 (match totalPages (queryAuditLogs parse rows None (Some n) None) with
                      | PagesFinite t => Z.to_nat t
                      | _ => 0%nat
                      end)))
    = map parse rows.
Proof.
  intros Hn.
  set (T := match totalPages (queryAuditLogs parse rows None (Some n) None) with
            | PagesFinite t => Z.to_nat t
            | _ => 0%nat
            end).
  rewrite (map_ext_in _ (fun k => map parse (firstn (Z.to_nat n) (skipn ((k - 1) * Z.to_nat n) rows)))).
  2:{ intros k Hk. apply in_seq in Hk.
      destruct (queryAuditLogs_slice parse rows (Some (Z.of_nat k)) (Some n) None ltac:(lia)) as [Hd _].
      rewrite Hd. cbn [from_cursor prisma_cursor].
      rewrite Z2Nat.inj_mul by lia.
      replace (Z.to_nat (Z.max (Z.of_nat k) 1 - 1)) with (k - 1)%nat by lia. reflexivity. }
  rewrite <- (map_map (fun k => firstn (Z.to_nat n) (skipn ((k - 1) * Z.to_nat n) rows)) (map parse)).
  rewrite <- concat_map, concat_pages, firstn_all2; [reflexivity|].
  unfold T, queryAuditLogs. cbn [totalPages]. unfold ceil_div.
  replace (n =? 0) with false by (symmetry; apply Z.eqb_neq; lia).
  cbn beta iota.
  set (L := Z.of_nat (length rows)).
  pose proof (Z.div_mod (- L) n ltac:(lia)) as Hdm.
  pose proof (Z.mod_pos_bound (- L) n Hn) as Hb.
  set (q := - L / n) in *.
  assert (Hq : q <= 0) by nia.
  rewrite <- Z2Nat.inj_mul by lia.
  assert (L <= - q * n) by lia. lia.
Qed.

Lemma queryAuditLogs_pages_cover_witness :
  concat (map (fun k => data (queryAuditLogs (fun l => l) [log_a; log_b] (Some (Z.of_nat k)) (Some 1) None))
              (seq 1 2)) = [log_a; log_b].
Proof. exact (queryAuditLogs_pages_cover (fun l => l) [log_a; log_b] 1 ltac:(lia)). Defined.

Lemma from_cursor_cons (r : AuditLog) (rest : list AuditLog) (c : string) :
  from_cursor (r :: rest) (Some c) = if String.eqb (al_id r) c then r :: rest else from_cursor rest (Some c).
Proof. reflexivity. Qed.

Lemma from_cursor_suffix (rows : list AuditLog) (cursor : option string) :
  exists j, from_cursor rows cursor = skipn j rows.
Proof.
  destruct cursor as [c|]; [|exists 0%nat; reflexivity].
  induction rows as [|r rest [j IH]]; [exists 0%nat; reflexivity|].
  rewrite from_cursor_cons. destruct (String.eqb (al_id r) c).
  - exists 0%nat. reflexivity.
  - exists (S j). exact IH.
Qed.

Lemma from_cursor_at (rows : list AuditLog) (i : nat) (r : AuditLog) :
  NoDup (map al_id rows) -> nth_error rows i = Some r ->
  from_cursor rows (Some (al_id r)) = skipn i rows.
Proof.
  revert i; induction rows as [|x rest IH]; intros i Hnd Hi; [destruct i; discriminate|].
  rewrite from_cursor_cons. cbn [map] in Hnd. apply NoDup_cons in Hnd as [Hx Hnd]. rewrite list_elem_of_In in Hx.
  destruct i as [|i]; cbn in Hi.
  - injection Hi as ->. rewrite String.eqb_refl. reflexivity.
  - destruct (String.eqb (al_id x) (al_id r)) eqn:E.
    + apply String.eqb_eq in E. exfalso. apply Hx. rewrite E.
      apply in_map. eapply nth_error_In. exact Hi.
    + apply IH; assumption.
Qed.

(** X25: with distinct row ids kept by parsing, the [nextCursor] of a page, used as the cursor without a page number, returns the same data as the following page. *)
Theorem nextCursor_continues (parse : AuditLog -> AuditLog) (rows : list AuditLog)
  (page_opt : option Z) (n : Z) (cursor : option string) (c : string) :
  let pg := match page_opt with Some p => p | None => 1 end in
  (forall r, al_id (parse r) = al_id r) -> NoDup (map al_id rows) -> 0 < n ->
  cursor <> Some ""%string -> c <> ""%string ->
  nextCursor (queryAuditLogs parse rows page_opt (Some n) cursor) = Some c ->
  data (queryAuditLogs parse rows None (Some n) (Some c))
    = data (queryAuditLogs parse rows (Some (Z.max pg 1 + 1)) (Some n) cursor).
Proof.
  cbv zeta. intros Hid Hnd Hn Hcur Hc0 Hc.
  assert (Epc : prisma_cursor cursor = cursor)
    by (destruct cursor as [s|]; [cbn; destruct (String.eqb_spec s ""%string); congruence | reflexivity]).
  assert (Epc' : prisma_cursor (Some c) = Some c)
    by (cbn; destruct (String.eqb_spec c ""%string); congruence).
  set (pg := match page_opt with Some p => p | None => 1 end).
  destruct (queryAuditLogs_slice parse rows page_opt (Some n) cursor ltac:(cbn; lia)) as [_ [Hnc _]].
  destruct (queryAuditLogs_slice parse rows None (Some n) (Some c) ltac:(cbn; lia)) as [Hl _].
  destruct (queryAuditLogs_slice parse rows (Some (Z.max pg 1 + 1)) (Some n) cursor ltac:(cbn; lia)) as [Hr _].
  rewrite Hl, Hr. cbn iota beta in Hnc, Hl, Hr |- *. fold pg in Hnc.
  rewrite Epc in Hnc |- *. rewrite Epc'.
  destruct (from_cursor_suffix rows cursor) as [j Hj]. rewrite Hj in Hnc |- *.
  rewrite Hc in Hnc. rewrite skipn_skipn, nth_error_skipn in Hnc.
  destruct (nth_error rows _) as [r|] eqn:Hr' in Hnc; [|discriminate].
  injection Hnc as Hrc. rewrite Hid in Hrc. subst c.
  rewrite (from_cursor_at rows _ r Hnd Hr'), skipn_skipn, skipn_skipn.
  f_equal. f_equal. f_equal.
  replace (Z.max (Z.max pg 1 + 1) 1 - 1) with (Z.max pg 1) by lia.
  rewrite !Z2Nat.inj_mul by lia.
  replace (Z.to_nat (Z.max pg 1)) with (S (Z.to_nat (Z.max pg 1 - 1))) by lia.
  replace (Z.to_nat (Z.max 1 1 - 1)) with 0%nat by lia.
  lia.
Qed.

Lemma nextCursor_continues_witness :
  data (queryAuditLogs (fun l => l) [log_a; log_b] None (Some 1) (Some "log_b"%string)) = [log_b].
Proof.
  etransitivity.
  - apply (nextCursor_continues (fun l => l) [log_a; log_b] None 1 None "log_b" (fun _ => eq_refl)).
    + cbn. constructor; [rewrite list_elem_of_In; cbn; intuition discriminate | apply NoDup_singleton].
    + lia.
    + discriminate.
    + discriminate.
    + vm_compute. reflexivity.
  - vm_compute. reflexivity.
Defined.

Lemma pretty_N_char_digit (d : N) : (d < 10)%N ->
  is_ascii_digit (pretty_N_char d) = true /\
  Z.of_nat (nat_of_ascii (pretty_N_char d)) - 48 = Z.of_N d.
Proof.
  intros Hd.
  assert (d = 0 \/ d = 1 \/ d = 2 \/ d = 3 \/ d = 4 \/ d = 5 \/ d = 6 \/ d = 7 \/ d = 8 \/ d = 9)%N
    as Hc by lia.
  repeat destruct Hc as [-> | Hc]; [..| subst d]; split; reflexivity.
Qed.

Lemma decimal_value_pretty_N_go (x : N) (s : string) :
  decimal_value_acc 0 (pretty_N_go x s) = decimal_value_acc (Z.of_N x) s.
Proof.
  revert s. induction (N.lt_wf_0 x) as [x _ IH]; intros s.
  destruct (N.eq_dec x 0%N) as [->|Hx]; [reflexivity|].
  rewrite pretty_N_go_step by lia. rewrite IH by (apply N.div_lt; lia).
  cbn [decimal_value_acc]. f_equal.
  destruct (pretty_N_char_digit (x mod 10)) as [_ ->]; [apply N.mod_lt; lia|].
  pose proof (N.div_mod x 10 ltac:(lia)). lia.
Qed.

Lemma digits_pretty_N_go (x : N) (s : string) :
  forallb is_ascii_digit (list_ascii_of_string s) = true ->
  forallb is_ascii_digit (list_ascii_of_string (pretty_N_go x s)) = true.
Proof.
  revert s. induction (N.lt_wf_0 x) as [x _ IH]; intros s Hs.
  destruct (N.eq_dec x 0%N) as [->|Hx]; [exact Hs|].
  rewrite pretty_N_go_step by lia. apply IH; [apply N.div_lt; lia|].
  cbn [list_ascii_of_string forallb]. rewrite Hs, andb_true_r.
  apply pretty_N_char_digit, N.mod_lt. lia.
Qed.

Lemma pretty_N_go_nonempty (x : N) (c : ascii) (s : string) : pretty_N_go x (String c s) <> ""%string.
Proof.
  revert c s. induction (N.lt_wf_0 x) as [x _ IH]; intros c s.
  destruct (N.eq_dec x 0%N) as [->|Hx]; [discriminate|].
  rewrite pretty_N_go_step by lia. apply IH. apply N.div_lt; lia.
Qed.

Lemma pretty_N_is_legacy_id (n : N) :
  isLegacyDocumentId (pretty n) = true /\ Number_of_digits (pretty n) = Z.of_N n.
Proof.
  unfold pretty, pretty_N. destruct (decide (n = 0%N)) as [->|Hn]; [split; reflexivity|].
  rewrite pretty_N_go_step by lia. unfold isLegacyDocumentId, Number_of_digits.
  rewrite <- pretty_N_go_step by lia. split.
  - apply andb_true_iff. split.
    + rewrite pretty_N_go_step by lia. apply negb_true_iff, String.eqb_neq, pretty_N_go_nonempty.
    + apply digits_pretty_N_go. reflexivity.
  - rewrite decimal_value_pretty_N_go. reflexivity.
Qed.

(** X26: [findEnvelopeAuditLogs] given the decimal text of a document id (a safe integer) does exactly what [findDocumentAuditLogs] does for that id. *)
Theorem legacy_numeric_id_is_document_lookup (parse : AuditLog -> AuditLog)
  (findEnvelopeWhere : EnvelopeIdConfig -> option EnvelopeType -> Z -> Z -> option Envelope)
  (auditLogRows : Envelope -> option bool -> list AuditLog)
  (userId teamId : Z) (n : N) (page perPage : option Z) (cursor : option string) (recent : option bool) :
  (n < 2 ^ 53)%N ->
  findEnvelopeAuditLogs parse findEnvelopeWhere auditLogRows userId teamId (pretty n) page perPage cursor recent
    = findDocumentAuditLogs parse findEnvelopeWhere auditLogRows userId teamId (Z.of_N n) page perPage cursor recent.
Proof.
  intros _. destruct (pretty_N_is_legacy_id n) as [Hl Hv].
  unfold findEnvelopeAuditLogs, idConfig. rewrite Hl, Hv. reflexivity.
Qed.

Lemma legacy_numeric_id_is_document_lookup_witness :
  findEnvelopeAuditLogs (fun l => l) legacy_lookup legacy_rows 5 7 "12345" None (Some 1) None None
    = findDocumentAuditLogs (fun l => l) legacy_lookup legacy_rows 5 7 12345 None (Some 1) None None /\
  findEnvelopeAuditLogs (fun l => l) legacy_lookup legacy_rows 5 7 "12345" None (Some 1) None None
    <> AuditLogsNotFound.
Proof.
  split.
  - exact (legacy_numeric_id_is_document_lookup (fun l => l) legacy_lookup legacy_rows 5 7 12345%N
             None (Some 1) None None ltac:(vm_compute; reflexivity)).
  - vm_compute. discriminate.
Defined.
